(** * Batch refiner (Ripal_tests/extraction/batch_refiner.py)

    A shallow embedding of the batch document refiner: backend rotation,
    work-item enumeration with the skip filter, the per-item processing
    body, the cooperative dispatch loop guarded by a counting semaphore,
    and report generation.

    Conventions of the embedding.
    - Python [str] is [string]; [len] is [String.length].
    - Python floats (durations, rates) are idealised as rationals [Q];
      no statement below depends on rounding.
    - A call that may raise returns [outcome]: [Ok v] or [Raise msg],
      where [msg] is [str(e)] of an [Exception] instance.
    - The outside world (files, the two LLM services, the clock) is a
      record of oracles, [World]. *)

From Stdlib Require Import QArith Ascii String.
From stdpp Require Import base list strings gmap.

Local Open Scope string_scope.
Local Open Scope nat_scope.

(** ** Results of calls that may raise *)

Inductive outcome (A : Type) : Type :=
  | Ok (v : A)
  | Raise (msg : string).
Arguments Ok {A} v.
Arguments Raise {A} msg.

#[global] Instance outcome_ret : MRet outcome := fun A v => Ok v.
#[global] Instance outcome_bind : MBind outcome := fun A B k x =>
  match x with
  | Ok v => k v
  | Raise msg => Raise msg
  end.

(** ** The string methods of Python the program uses *)

Module PyStr.

(** [s.startswith(p)] *)
Fixpoint startswith (p s : string) : bool :=
  match p, s with
  | EmptyString, _ => true
  | String a p', String b s' => if Ascii.eqb a b then startswith p' s' else false
  | String _ _, EmptyString => false
  end.

(** [s[n:]] *)
Fixpoint drop_chars (n : nat) (s : string) : string :=
  match n, s with
  | 0, _ => s
  | S n', String _ s' => drop_chars n' s'
  | S _, EmptyString => EmptyString
  end.

(** [s.endswith(suf)] *)
Definition endswith (suf s : string) : bool :=
  if String.length suf <=? String.length s
  then String.eqb (drop_chars (String.length s - String.length suf) s) suf
  else false.

(** [s.split(c)] for a one-character separator: [k] occurrences of the
    separator give [k + 1] pieces, empty ones included. *)
Fixpoint split (c : ascii) (s : string) : list string :=
  match s with
  | EmptyString => [EmptyString]
  | String a s' =>
      if Ascii.eqb a c then EmptyString :: split c s'
      else match split c s' with
           | p :: ps => String a p :: ps
           | [] => [String a EmptyString]
           end
  end.

(** [sep.join(l)] *)
Fixpoint join (sep : string) (l : list string) : string :=
  match l with
  | [] => EmptyString
  | [x] => x
  | x :: rest => x ++ sep ++ join sep rest
  end.

(** [s.replace(old, new)] for a non-empty [old]: occurrences are found
    left to right and do not overlap.  [skip] counts the characters of
    a match still to be passed over. *)
Fixpoint replace_from (old new : string) (skip : nat) (s : string) : string :=
  match s with
  | EmptyString => EmptyString
  | String a s' =>
      match skip with
      | S k => replace_from old new k s'
      | 0 =>
          if startswith old s
          then new ++ replace_from old new (String.length old - 1) s'
          else String a (replace_from old new 0 s')
      end
  end.

Definition replace (old new s : string) : string := replace_from old new 0 s.

(** [c in s] for a character [c] *)
Definition contains_char (c : ascii) (s : string) : bool :=
  existsb (Ascii.eqb c) (list_ascii_of_string s).

(** [s.rsplit(c, 1)[0]]: what precedes the last [c], or all of [s] when
    [c] does not occur. *)
Fixpoint rsplit1_head (c : ascii) (s : string) : string :=
  match s with
  | EmptyString => EmptyString
  | String a s' =>
      if contains_char c s'
      then String a (rsplit1_head c s')
      else if Ascii.eqb a c then EmptyString else s
  end.

(** [s.partition(c)[2]]: what follows the first [c], empty when [c] does
    not occur. *)
Fixpoint partition_tail (c : ascii) (s : string) : string :=
  match s with
  | EmptyString => EmptyString
  | String a s' => if Ascii.eqb a c then s' else partition_tail c s'
  end.

(** [os.path.splitext(p)[0]] (posixpath): the extension starts at the
    last dot of the last path component, unless only dots precede it. *)
Fixpoint last_component (s : string) : string :=
  match s with
  | EmptyString => EmptyString
  | String a s' =>
      if contains_char "/"%char s'
      then last_component s'
      else if Ascii.eqb a "/"%char then s' else s
  end.

Fixpoint all_dots (s : string) : bool :=
  match s with
  | EmptyString => true
  | String a s' => Ascii.eqb a "."%char && all_dots s'
  end.

Definition splitext_root (p : string) : string :=
  let comp := last_component p in
  if contains_char "."%char comp then
    let stem := rsplit1_head "."%char comp in
    if all_dots stem then p
    else String.substring 0 (String.length p - String.length comp + String.length stem) p
  else p.

(** [os.path.join(a, b)] (posixpath) *)
Definition path_join (a b : string) : string :=
  if startswith "/" b then b
  else if String.eqb a "" || endswith "/" a then a ++ b
  else a ++ "/" ++ b.

(** A decimal field of fixed width, as [strftime] prints [%Y], [%m], ... *)
Definition digit (d : nat) : ascii := ascii_of_nat (48 + d mod 10).

Fixpoint zero_pad (width n : nat) : string :=
  match width with
  | 0 => EmptyString
  | S w => zero_pad w (n / 10) ++ String (digit n) EmptyString
  end.

End PyStr.

(** ** Data model *)

Record ProcessingResult := {
  filename : string;
  model_used : string;
  success : bool;
  output_file : option string;
  error : option string;
  processing_time : Q;
  content_length : nat
}.

Record ModelConfig := {
  name : string;
  short_name : string;
  provider : string;
  rate_limit_delay : Q
}.

(** [datetime.now()] *)
Record DateTime := {
  year : nat; month : nat; day : nat;
  hour : nat; minute : nat; second : nat
}.

(** [dt.strftime('%Y%m%d_%H%M%S')] *)
Definition strftime_stamp (dt : DateTime) : string :=
  PyStr.zero_pad 4 (year dt) ++ PyStr.zero_pad 2 (month dt) ++ PyStr.zero_pad 2 (day dt)
  ++ "_" ++ PyStr.zero_pad 2 (hour dt) ++ PyStr.zero_pad 2 (minute dt)
  ++ PyStr.zero_pad 2 (second dt).


(** Availability of the optional imports at the top of the module. *)
Record Imports := {
  HAS_AIOFILES : bool;
  HAS_GEMINI : bool;
  HAS_OPENAI : bool
}.

(** The outside world.  Oracles that serve one work item take the item's
    file name first, so that two items never have to see the same answer.
    [path_exists] and [listdir] give the directories as
    [get_files_to_process] finds them, after [setup_directories]; a path
    that exists is taken to be a directory. *)
Record World := {
  path_exists : string -> bool;                 (* os.path.exists *)
  listdir : string -> list string;              (* os.listdir *)
  open_read : string -> string -> outcome string;          (* item, path *)
  open_write : string -> string -> string -> outcome unit; (* item, path, content *)
  generate_content : string -> string -> string -> outcome string;
                                                (* item, Gemini model, prompt: response.text *)
  chat_completions_create : string -> string -> string -> outcome string;
                                                (* item, model name, prompt: message content *)
  now : string -> DateTime;                     (* datetime.now() when the item's output is named *)
  elapsed : string -> Q;                        (* time.time() - start_time when the item ends *)
  report_now : DateTime                         (* datetime.now() in generate_report *)
}.

(** [self] of [AdvancedDocumentRefiner]; [semaphore] is the value of the
    [asyncio.Semaphore], the number of free permits. *)
Record AdvancedDocumentRefiner := {
  mode : string;
  models : list ModelConfig;
  input_dir : string;
  output_dir : string;
  max_parallel : nat;
  openrouter_api_key : string;
  results : list ProcessingResult;
  current_model_index : nat;
  semaphore : nat
}.

Definition set_models (ms : list ModelConfig) (self : AdvancedDocumentRefiner) :=
  {| mode := mode self; models := ms; input_dir := input_dir self;
     output_dir := output_dir self; max_parallel := max_parallel self;
     openrouter_api_key := openrouter_api_key self; results := results self;
     current_model_index := current_model_index self; semaphore := semaphore self |}.

Definition set_results (rs : list ProcessingResult) (self : AdvancedDocumentRefiner) :=
  {| mode := mode self; models := models self; input_dir := input_dir self;
     output_dir := output_dir self; max_parallel := max_parallel self;
     openrouter_api_key := openrouter_api_key self; results := rs;
     current_model_index := current_model_index self; semaphore := semaphore self |}.

Definition set_current_model_index (i : nat) (self : AdvancedDocumentRefiner) :=
  {| mode := mode self; models := models self; input_dir := input_dir self;
     output_dir := output_dir self; max_parallel := max_parallel self;
     openrouter_api_key := openrouter_api_key self; results := results self;
     current_model_index := i; semaphore := semaphore self |}.

Definition set_semaphore (v : nat) (self : AdvancedDocumentRefiner) :=
  {| mode := mode self; models := models self; input_dir := input_dir self;
     output_dir := output_dir self; max_parallel := max_parallel self;
     openrouter_api_key := openrouter_api_key self; results := results self;
     current_model_index := current_model_index self; semaphore := v |}.

(** What a run does to the outside world, in order. *)
Inductive event :=
  | EvMakedirs (path : string)
  | EvListdir (path : string)
  | EvAcquire (item : string)
  | EvNextModel (item : string) (m : ModelConfig)
  | EvRead (item path : string)
  | EvCall (item provider model_name : string)
  | EvWrite (item path content : string)
  | EvSleep (item : string) (delay : Q)
  | EvRelease (item : string)
  | EvReturn (item : string) (r : ProcessingResult)
  | EvReport (path : string).

(** ** Construction *)

Definition all_models : list ModelConfig :=
  [ {| name := "gemini-2.5-pro"; short_name := "gemini_25_pro";
       provider := "gemini"; rate_limit_delay := 8 |};
    {| name := "deepseek/deepseek-r1-0528-qwen3-8b:free"; short_name := "deepseek_qwen3_8b";
       provider := "openrouter"; rate_limit_delay := 8 |};
    {| name := "deepseek/deepseek-r1-0528:free"; short_name := "deepseek_r1";
       provider := "openrouter"; rate_limit_delay := 8 |};
    {| name := "meta-llama/llama-3.1-405b-instruct:free"; short_name := "llama_405b";
       provider := "openrouter"; rate_limit_delay := 8 |};
    {| name := "mistralai/mistral-small-3.1-24b-instruct:free"; short_name := "mistral_small";
       provider := "openrouter"; rate_limit_delay := 8 |} ].

(** The loop of [setup_clients] that keeps the models whose client
    library was imported. *)
Definition model_available (imp : Imports) (m : ModelConfig) : bool :=
  if String.eqb (provider m) "gemini" && HAS_GEMINI imp then true
  else if String.eqb (provider m) "openrouter" && HAS_OPENAI imp then true
  else false.

Definition setup_clients (imp : Imports) (self : AdvancedDocumentRefiner)
  : outcome AdvancedDocumentRefiner :=
  let available_models := List.filter (model_available imp) (models self) in
  let self := set_models available_models self in
  match models self with
  | [] => Raise "No AI models available - install required dependencies"
  | _ :: _ => Ok self
  end.

(** The models [__init__] keeps for a mode. *)
Definition models_for_mode (mode_arg : string) : list ModelConfig :=
  if String.eqb mode_arg "gemini"
  then List.filter (fun m => String.eqb (provider m) "gemini") all_models
  else if String.eqb mode_arg "openrouter"
  then List.filter (fun m => String.eqb (provider m) "openrouter") all_models
  else all_models.

(** [AdvancedDocumentRefiner.__init__]: the processing state (results,
    rotation index, semaphore) is set only after [setup_clients] has
    returned. *)
Definition init (imp : Imports) (mode_arg : string) : outcome AdvancedDocumentRefiner :=
  let self :=
    {| mode := mode_arg; models := models_for_mode mode_arg;
       input_dir := "Barba_Docs"; output_dir := "Barba_Docs_Refined";
       max_parallel := 5;
       openrouter_api_key := "add_your_openrouter_api_key_here";
       results := []; current_model_index := 0; semaphore := 0 |} in
  self ← setup_clients imp self;
  Ok (set_semaphore (max_parallel self)
        (set_current_model_index 0 (set_results [] self))).

(** ** Backend rotation *)

(** [get_next_model]: indexing a list out of range raises IndexError. *)
Definition get_next_model (self : AdvancedDocumentRefiner)
  : outcome (ModelConfig * AdvancedDocumentRefiner) :=
  match models self !! current_model_index self with
  | None => Raise "list index out of range"
  | Some model =>
      Ok (model,
          set_current_model_index
            ((current_model_index self + 1) mod length (models self)) self)
  end.

(** The backends handed out by [n] consecutive calls. *)
Fixpoint rotation (n : nat) (self : AdvancedDocumentRefiner)
  : outcome (list ModelConfig * AdvancedDocumentRefiner) :=
  match n with
  | 0 => Ok ([], self)
  | S k =>
      '(m, self) ← get_next_model self;
      '(ms, self) ← rotation k self;
      Ok (m :: ms, self)
  end.

(** ** Work-item enumeration *)

(** The body of the loop over the output directory: the input name an
    existing output name is taken to come from. *)
Definition original_of (f : string) : option string :=
  if PyStr.startswith "refined_" f then
    let parts := PyStr.split "_" f in
    if 3 <=? length parts then
      let original := PyStr.replace ".txt" "" (PyStr.join "_" (drop 2 parts)) in
      let original := PyStr.rsplit1_head "_" original ++ ".txt" in
      Some original
    else None
  else None.

Definition processed_files (W : World) (self : AdvancedDocumentRefiner) : gset string :=
  if path_exists W (output_dir self)
  then list_to_set (omap original_of (listdir W (output_dir self)))
  else ∅.

Definition get_files_to_process (W : World) (self : AdvancedDocumentRefiner) : list string :=
  if negb (path_exists W (input_dir self)) then []
  else
    let all_files :=
      List.filter (fun f => PyStr.endswith ".txt" f && negb (PyStr.startswith "refined_" f))
                  (listdir W (input_dir self)) in
    let processed := processed_files W self in
    List.filter (fun f => bool_decide (f ∉ processed)) all_files.

(** ** Report *)

Record ModelStat := { total : nat; successful : nat; failed : nat }.

(** [model_stats[model]] is created on first use and then counted up; a
    Python dict keeps its keys in insertion order. *)
Fixpoint count_result (model : string) (ok : bool) (stats : list (string * ModelStat))
  : list (string * ModelStat) :=
  match stats with
  | [] => [(model, {| total := 1;
                      successful := if ok then 1 else 0;
                      failed := if ok then 0 else 1 |})]
  | (k, v) :: rest =>
      if String.eqb k model
      then (k, {| total := total v + 1;
                  successful := if ok then successful v + 1 else successful v;
                  failed := if ok then failed v else failed v + 1 |}) :: rest
      else (k, v) :: count_result model ok rest
  end.

Definition model_stats_of (rs : list ProcessingResult) : list (string * ModelStat) :=
  fold_left (fun stats r => count_result (model_used r) (success r) stats) rs [].

(** [a / b] on numbers: ZeroDivisionError when [b] is zero. *)
Definition truediv (a b : Q) : outcome Q :=
  if Qeq_bool b 0 then Raise "division by zero" else Ok (a / b)%Q.

Definition Qnat (n : nat) : Q := inject_Z (Z.of_nat n).

Definition Qsum (l : list Q) : Q := fold_left Qplus l 0%Q.

(** The values the report text interpolates. *)
Record Report := {
  rep_total_files : nat;
  rep_successful : nat;
  rep_failed : nat;
  rep_success_rate : Q;
  rep_total_time : Q;
  rep_avg_time : Q;
  rep_total_content : nat;
  rep_max_parallel : nat;
  rep_model_lines : list (string * ModelStat * Q);
  rep_success_lines : list ProcessingResult;
  rep_failed_lines : list ProcessingResult;
  rep_output_dir : string
}.

(** The per-model line of the report; its rate is guarded. *)
Definition model_line (kv : string * ModelStat) : outcome (string * ModelStat * Q) :=
  let '(model, stats) := kv in
  success_rate ←
    (if 0 <? total stats
     then (q ← truediv (Qnat (successful stats)) (Qnat (total stats)); Ok (q * 100)%Q)
     else Ok 0%Q);
  Ok (model, stats, success_rate).

Fixpoint model_lines (kvs : list (string * ModelStat))
  : outcome (list (string * ModelStat * Q)) :=
  match kvs with
  | [] => Ok []
  | kv :: rest =>
      l ← model_line kv;
      ls ← model_lines rest;
      Ok (l :: ls)
  end.

(** The part of [generate_report] that computes: everything up to the
    call that writes the file. *)
Definition build_report (self : AdvancedDocumentRefiner) : outcome Report :=
  let successful := List.filter success (results self) in
  let failed := List.filter (fun r => negb (success r)) (results self) in
  let total_time := Qsum (processing_time <$> results self) in
  avg_time ←
    (match results self with
     | [] => Ok 0%Q
     | _ :: _ => truediv total_time (Qnat (length (results self)))
     end);
  let total_content := sum_list (content_length <$> successful) in
  let model_stats := model_stats_of (results self) in
  rate ← truediv (Qnat (length successful)) (Qnat (length (results self)));
  let success_rate := (rate * 100)%Q in
  lines ← model_lines model_stats;
  Ok {| rep_total_files := length (results self);
        rep_successful := length successful;
        rep_failed := length failed;
        rep_success_rate := success_rate;
        rep_total_time := total_time;
        rep_avg_time := avg_time;
        rep_total_content := total_content;
        rep_max_parallel := max_parallel self;
        rep_model_lines := lines;
        rep_success_lines := successful;
        rep_failed_lines := failed;
        rep_output_dir := output_dir self |}.

(** ** Per-item processing and the dispatch loop *)

(** Where a task of [process_single_file] is suspended.  A task that has
    its permit stays in one of the [Await...] states after [AwaitPermit]
    until it returns. *)
Inductive pc :=
  | AwaitPermit                                        (* async with self.semaphore *)
  | AwaitRead (m : ModelConfig)                        (* await self.read_file_async *)
  | AwaitBackend (m : ModelConfig) (content : string)  (* await self.process_with_... *)
  | AwaitWrite (m : ModelConfig) (refined_content : string)
                                                       (* await self.write_file_async *)
  | AwaitSleep (m : ModelConfig) (refined_content output_filename : string)
                                                       (* await asyncio.sleep *)
  | Returned (r : ProcessingResult)
  | Raised (msg : string).

(** A run of the loop of [run_batch_processing]: the tasks in submission
    order, the outcomes of finished tasks [as_completed] has not yielded
    yet, the events so far, and the exception that ended the run, if any. *)
Record RunState := {
  self_of : AdvancedDocumentRefiner;
  tasks : list (string * pc);
  finished : list (outcome ProcessingResult);
  log : list event;
  aborted : option string
}.

(** What the scheduler resumes next: task number [i], or the main loop. *)
Inductive label :=
  | LTask (i : nat)
  | LCollect.

Definition holds_permit (p : pc) : bool :=
  match p with
  | AwaitRead _ | AwaitBackend _ _ | AwaitWrite _ _ | AwaitSleep _ _ _ => true
  | AwaitPermit | Returned _ | Raised _ => false
  end.

(** Number of items inside the critical section. *)
Definition in_flight (st : RunState) : nat :=
  length (List.filter (fun t => holds_permit (snd t)) (tasks st)).

(** Suspension points a task still has before it, at most. *)
Definition pc_weight (p : pc) : nat :=
  match p with
  | AwaitPermit => 6
  | AwaitRead _ => 5
  | AwaitBackend _ _ => 4
  | AwaitWrite _ _ => 3
  | AwaitSleep _ _ _ => 2
  | Returned _ | Raised _ => 0
  end.

Definition run_weight (st : RunState) : nat :=
  match aborted st with
  | Some _ => 0
  | None => sum_list_with (fun t => pc_weight (snd t)) (tasks st) + length (finished st)
  end.

(** What a run is given: the world, the imports that succeeded, and two
    texts the model leaves open, the instructions [get_refining_prompt]
    starts with and the layout [generate_report] gives the report. *)
Record Env := {
  world :> World;
  imports :> Imports;
  refining_instructions : string;
  render : Report -> string
}.

Section Refiner.

Variable E : Env.

Definition get_refining_prompt : string :=
  refining_instructions E
  ++ "==================================================" ++ String "010"%char "".

Definition read_file_async (item file_path : string) : outcome string :=
  if HAS_AIOFILES E then open_read E item file_path
  else open_read E item file_path.

Definition write_file_async (item file_path content : string) : outcome unit :=
  if HAS_AIOFILES E then open_write E item file_path content
  else open_write E item file_path content.

Definition process_with_gemini (item content : string) (model_config : ModelConfig)
  : outcome string :=
  let prompt := get_refining_prompt ++ content in
  match generate_content E item "gemini-2.0-flash-exp" prompt with
  | Ok text => Ok text
  | Raise e => Raise ("Gemini processing error: " ++ e)
  end.

Definition process_with_openrouter (item content : string) (model_config : ModelConfig)
  : outcome string :=
  let prompt := get_refining_prompt ++ content in
  match chat_completions_create E item (name model_config) prompt with
  | Ok text => Ok text
  | Raise e => Raise ("OpenRouter processing error: " ++ e)
  end.

Definition call_backend (item content : string) (model_config : ModelConfig)
  : outcome string :=
  if String.eqb (provider model_config) "gemini"
  then process_with_gemini item content model_config
  else process_with_openrouter item content model_config.

Definition output_filename_of (model_config : ModelConfig) (filename : string) : string :=
  let timestamp := strftime_stamp (now E filename) in
  let base_name := PyStr.splitext_root filename in
  "refined_" ++ short_name model_config ++ "_" ++ base_name ++ "_" ++ timestamp ++ ".txt".

(** The two [return] statements of [process_single_file]. *)
Definition success_result (model_config : ModelConfig) (filename output_filename
                           refined_content : string) : ProcessingResult :=
  {| filename := filename;
     model_used := short_name model_config;
     success := true;
     output_file := Some output_filename;
     error := None;
     processing_time := elapsed E filename;
     content_length := String.length refined_content |}.

Definition failure_result (model_config : ModelConfig) (filename e : string)
  : ProcessingResult :=
  {| filename := filename;
     model_used := short_name model_config;
     success := false;
     output_file := None;
     error := Some e;
     processing_time := elapsed E filename;
     content_length := 0 |}.

(** The [try] ... [except Exception] block of [process_single_file], run
    without interruption, with the events it causes. *)
Definition process_item (self : AdvancedDocumentRefiner) (model_config : ModelConfig)
    (filename : string) : ProcessingResult * list event :=
  let input_path := PyStr.path_join (input_dir self) filename in
  let ev_read := EvRead filename input_path in
  match read_file_async filename input_path with
  | Raise e => (failure_result model_config filename e, [ev_read])
  | Ok content =>
      let ev_call := EvCall filename (provider model_config) (name model_config) in
      match call_backend filename content model_config with
      | Raise e => (failure_result model_config filename e, [ev_read; ev_call])
      | Ok refined_content =>
          let output_filename := output_filename_of model_config filename in
          let output_path := PyStr.path_join (output_dir self) output_filename in
          let ev_write := EvWrite filename output_path refined_content in
          match write_file_async filename output_path refined_content with
          | Raise e =>
              (failure_result model_config filename e, [ev_read; ev_call; ev_write])
          | Ok _ =>
              (success_result model_config filename output_filename refined_content,
               [ev_read; ev_call; ev_write;
                EvSleep filename (rate_limit_delay model_config)])
          end
      end
  end.

(** [process_single_file] when nothing else runs in between: the permit
    is taken, the next model drawn outside the [try], the item handled,
    and the permit given back when the [async with] block is left.
    [None]: no permit is free and the task waits. *)
Definition process_single_file (self : AdvancedDocumentRefiner) (filename : string)
  : option (outcome (ProcessingResult * AdvancedDocumentRefiner) * list event) :=
  match semaphore self with
  | 0 => None
  | S free =>
      let self := set_semaphore free self in
      match get_next_model self with
      | Raise e =>
          Some (Raise e, [EvAcquire filename; EvRelease filename])
      | Ok (model_config, self) =>
          let '(r, evs) := process_item self model_config filename in
          let self := set_semaphore (semaphore self + 1) self in
          Some (Ok (r, self),
                ([EvAcquire filename; EvNextModel filename model_config]
                 ++ evs ++ [EvRelease filename; EvReturn filename r])%list)
      end
  end.

(** *** One resumption of a task *)

(** What a task that holds its permit does when it is resumed: it runs
    to its next [await], or to one of the two [return] statements. *)
Inductive resumed :=
  | Suspends (p : pc) (ev : event)
  | Returns (r : ProcessingResult) (ev : event).

Definition resume (self : AdvancedDocumentRefiner) (filename : string) (p : pc)
  : option resumed :=
  match p with
  | AwaitRead m =>
      let input_path := PyStr.path_join (input_dir self) filename in
      let ev := EvRead filename input_path in
      Some match read_file_async filename input_path with
           | Raise e => Returns (failure_result m filename e) ev
           | Ok content => Suspends (AwaitBackend m content) ev
           end
  | AwaitBackend m content =>
      let ev := EvCall filename (provider m) (name m) in
      Some match call_backend filename content m with
           | Raise e => Returns (failure_result m filename e) ev
           | Ok refined_content => Suspends (AwaitWrite m refined_content) ev
           end
  | AwaitWrite m refined_content =>
      let output_filename := output_filename_of m filename in
      let output_path := PyStr.path_join (output_dir self) output_filename in
      let ev := EvWrite filename output_path refined_content in
      Some match write_file_async filename output_path refined_content with
           | Raise e => Returns (failure_result m filename e) ev
           | Ok _ => Suspends (AwaitSleep m refined_content output_filename) ev
           end
  | AwaitSleep m refined_content output_filename =>
      Some (Returns (success_result m filename output_filename refined_content)
              (EvSleep filename (rate_limit_delay m)))
  | AwaitPermit | Returned _ | Raised _ => None
  end.

Definition advance (i : nat) (filename : string) (p : pc) (evs : list event)
    (st : RunState) : RunState :=
  {| self_of := self_of st;
     tasks := <[i := (filename, p)]> (tasks st);
     finished := finished st;
     log := log st ++ evs;
     aborted := aborted st |}.

(** The task returns [r]: the [async with] block is left, which gives
    the permit back, and [as_completed] gets the result. *)
Definition finish_task (i : nat) (filename : string) (r : ProcessingResult)
    (evs : list event) (st : RunState) : RunState :=
  {| self_of := set_semaphore (semaphore (self_of st) + 1) (self_of st);
     tasks := <[i := (filename, Returned r)]> (tasks st);
     finished := finished st ++ [Ok r];
     log := log st ++ evs ++ [EvRelease filename; EvReturn filename r];
     aborted := aborted st |}.

Definition step_task (i : nat) (st : RunState) : option RunState :=
  match aborted st with
  | Some _ => None
  | None =>
      match tasks st !! i with
      | None => None
      | Some (filename, AwaitPermit) =>
          match semaphore (self_of st) with
          | 0 => None
          | S free =>
              match get_next_model (set_semaphore free (self_of st)) with
              | Raise e =>
                  Some {| self_of := self_of st;
                          tasks := <[i := (filename, Raised e)]> (tasks st);
                          finished := finished st ++ [Raise e];
                          log := log st ++ [EvAcquire filename; EvRelease filename];
                          aborted := aborted st |}
              | Ok (model_config, self) =>
                  Some {| self_of := self;
                          tasks := <[i := (filename, AwaitRead model_config)]> (tasks st);
                          finished := finished st;
                          log := log st ++ [EvAcquire filename;
                                            EvNextModel filename model_config];
                          aborted := aborted st |}
              end
          end
      | Some (filename, p) =>
          match resume (self_of st) filename p with
          | Some (Suspends p' ev) => Some (advance i filename p' [ev] st)
          | Some (Returns r ev) => Some (finish_task i filename r [ev] st)
          | None => None
          end
      end
  end.

(** One turn of [for i, task in enumerate(asyncio.as_completed(tasks), 1)]:
    the oldest finished task is awaited; its result is appended, or its
    exception leaves the loop. *)
Definition step_collect (st : RunState) : option RunState :=
  match aborted st with
  | Some _ => None
  | None =>
      match finished st with
      | [] => None
      | Ok result :: rest =>
          Some {| self_of := set_results (results (self_of st) ++ [result]) (self_of st);
                  tasks := tasks st;
                  finished := rest;
                  log := log st;
                  aborted := None |}
      | Raise e :: rest =>
          Some {| self_of := self_of st;
                  tasks := tasks st;
                  finished := rest;
                  log := log st;
                  aborted := Some e |}
      end
  end.

Definition step_fn (l : label) (st : RunState) : option RunState :=
  match l with
  | LTask i => step_task i st
  | LCollect => step_collect st
  end.

Definition step (st st' : RunState) : Prop := ∃ l, step_fn l st = Some st'.

Definition reachable (st0 st : RunState) : Prop := rtc step st0 st.

Definition terminal (st : RunState) : Prop := ∀ l, step_fn l st = None.

(** *** Schedules *)

(** A schedule names what to resume, turn by turn; a turn that names
    something that cannot run is lost. *)
Definition exec_schedule (sched : list label) (st : RunState) : RunState :=
  fold_left (fun st l => default st (step_fn l st)) sched st.

Fixpoint first_enabled (candidates : list label) (st : RunState) : option RunState :=
  match candidates with
  | [] => None
  | l :: rest =>
      match step_fn l st with
      | Some st' => Some st'
      | None => first_enabled rest st
      end
  end.

Definition candidates (st : RunState) : list label :=
  LCollect :: (LTask <$> seq 0 (length (tasks st))).

(** Runs whatever can run until nothing can. *)
Fixpoint drain (fuel : nat) (st : RunState) : RunState :=
  match fuel with
  | 0 => st
  | S k =>
      match first_enabled (candidates st) st with
      | Some st' => drain k st'
      | None => st
      end
  end.

Definition run_loop (sched : list label) (st : RunState) : RunState :=
  let st := exec_schedule sched st in
  drain (run_weight st) st.

(** *** The run *)

Definition start (self : AdvancedDocumentRefiner) (files_to_process : list string)
    (evs : list event) : RunState :=
  {| self_of := self;
     tasks := (fun f => (f, AwaitPermit)) <$> files_to_process;
     finished := [];
     log := evs;
     aborted := None |}.

Definition report_path (self : AdvancedDocumentRefiner) : string :=
  let timestamp := strftime_stamp (report_now E) in
  PyStr.path_join (output_dir self) ("batch_refining_report_" ++ timestamp ++ ".txt").

Definition generate_report (self : AdvancedDocumentRefiner) : outcome Report :=
  report ← build_report self;
  _ ← write_file_async "batch_refining_report" (report_path self) (render E report);
  Ok report.

Definition enumeration_events (self : AdvancedDocumentRefiner) : list event :=
  if negb (path_exists E (input_dir self)) then []
  else EvListdir (input_dir self)
       :: (if path_exists E (output_dir self) then [EvListdir (output_dir self)] else []).

(** [run_batch_processing] under a schedule: the refiner afterwards, or
    the exception that left the function, and the events. *)
Definition run_batch_processing (sched : list label) (self : AdvancedDocumentRefiner)
  : outcome AdvancedDocumentRefiner * list event :=
  let setup := EvMakedirs (output_dir self) :: enumeration_events self in
  let files_to_process := get_files_to_process E self in
  match files_to_process with
  | [] => (Ok self, setup)
  | _ :: _ =>
      let st := run_loop sched (start self files_to_process setup) in
      match aborted st with
      | Some e => (Raise e, log st)
      | None =>
          match generate_report (self_of st) with
          | Raise e => (Raise e, log st)
          | Ok _ => (Ok (self_of st), (log st ++ [EvReport (report_path (self_of st))])%list)
          end
      end
  end.

(** [main]: the message logged by [except Exception], if any, and the
    events of the run. *)
Definition main (geminionly openrouteronly : bool) (sched : list label)
  : option string * list event :=
  let mode_arg :=
    if geminionly then "gemini" else if openrouteronly then "openrouter" else "all" in
  match init E mode_arg with
  | Raise e => (Some ("Unexpected error: " ++ e), [])
  | Ok refiner =>
      match run_batch_processing sched refiner with
      | (Raise e, evs) => (Some ("Unexpected error: " ++ e), evs)
      | (Ok _, evs) => (None, evs)
      end
  end.

(** *** Predicates used to reason about the loop *)

Local Open Scope list_scope.

(** The four things a resumed task can do, with the task list split
    around the task. *)
Inductive task_step (st st' : RunState) : Prop :=
  | ts_acquire l1 l2 f free m self' :
      aborted st = None →
      tasks st = l1 ++ (f, AwaitPermit) :: l2 →
      semaphore (self_of st) = S free →
      get_next_model (set_semaphore free (self_of st)) = Ok (m, self') →
      st' = {| self_of := self';
               tasks := l1 ++ (f, AwaitRead m) :: l2;
               finished := finished st;
               log := log st ++ [EvAcquire f; EvNextModel f m];
               aborted := None |} →
      task_step st st'
  | ts_index_error l1 l2 f free e :
      aborted st = None →
      tasks st = l1 ++ (f, AwaitPermit) :: l2 →
      semaphore (self_of st) = S free →
      get_next_model (set_semaphore free (self_of st)) = Raise e →
      st' = {| self_of := self_of st;
               tasks := l1 ++ (f, Raised e) :: l2;
               finished := finished st ++ [Raise e];
               log := log st ++ [EvAcquire f; EvRelease f];
               aborted := None |} →
      task_step st st'
  | ts_suspend l1 l2 f p p' ev :
      aborted st = None →
      tasks st = l1 ++ (f, p) :: l2 →
      resume (self_of st) f p = Some (Suspends p' ev) →
      st' = {| self_of := self_of st;
               tasks := l1 ++ (f, p') :: l2;
               finished := finished st;
               log := log st ++ [ev];
               aborted := None |} →
      task_step st st'
  | ts_return l1 l2 f p r ev :
      aborted st = None →
      tasks st = l1 ++ (f, p) :: l2 →
      resume (self_of st) f p = Some (Returns r ev) →
      st' = {| self_of := set_semaphore (semaphore (self_of st) + 1) (self_of st);
               tasks := l1 ++ (f, Returned r) :: l2;
               finished := finished st ++ [Ok r];
               log := log st ++ [ev; EvRelease f; EvReturn f r];
               aborted := None |} →
      task_step st st'.

Definition returned_result (t : string * pc) : option ProcessingResult :=
  match snd t with
  | Returned r => Some r
  | _ => None
  end.

Definition pending_results (os : list (outcome ProcessingResult))
  : list ProcessingResult :=
  omap (fun o => match o with Ok r => Some r | Raise _ => None end) os.

(** Two refiners with the same configuration; a run changes only the
    processing state. *)
Definition same_config (a b : AdvancedDocumentRefiner) : Prop :=
  mode a = mode b ∧ models a = models b ∧ input_dir a = input_dir b
  ∧ output_dir a = output_dir b ∧ max_parallel a = max_parallel b
  ∧ openrouter_api_key a = openrouter_api_key b.

(** What a task at [p] has behind it: the calls of [process_item] up
    to that point went the way [p] records.  A task never is at
    [Raised] as long as the rotation index is in range. *)
Definition pc_expect (self : AdvancedDocumentRefiner) (f : string) (p : pc) : Prop :=
  let input_path := PyStr.path_join (input_dir self) f in
  match p with
  | AwaitPermit => True
  | AwaitRead m => m ∈ models self
  | AwaitBackend m content =>
      m ∈ models self ∧ read_file_async f input_path = Ok content
  | AwaitWrite m refined_content =>
      m ∈ models self
      ∧ ∃ content, read_file_async f input_path = Ok content
                   ∧ call_backend f content m = Ok refined_content
  | AwaitSleep m refined_content output_filename =>
      m ∈ models self
      ∧ output_filename = output_filename_of m f
      ∧ ∃ content, read_file_async f input_path = Ok content
                   ∧ call_backend f content m = Ok refined_content
                   ∧ write_file_async f (PyStr.path_join (output_dir self) output_filename)
                       refined_content = Ok tt
  | Returned r => ∃ m, m ∈ models self ∧ r = fst (process_item self m f)
  | Raised _ => False
  end.

(** Field coherence of a result: a success names its output, carries no
    error and counts the characters that were written; a failure carries
    an error, no output and a count of zero. *)
Definition field_coherent (self : AdvancedDocumentRefiner) (r : ProcessingResult) : Prop :=
  (success r = true →
   ∃ out content,
     output_file r = Some out ∧ error r = None
     ∧ write_file_async (filename r) (PyStr.path_join (output_dir self) out) content = Ok tt
     ∧ content_length r = String.length content)
  ∧ (success r = false →
     ∃ e, error r = Some e ∧ output_file r = None ∧ content_length r = 0).

(** The item an event belongs to. *)
Definition item_of (ev : event) : option string :=
  match ev with
  | EvAcquire f | EvNextModel f _ | EvRead f _ | EvCall f _ _ | EvWrite f _ _
  | EvSleep f _ | EvRelease f | EvReturn f _ => Some f
  | EvMakedirs _ | EvListdir _ | EvReport _ => None
  end.

Definition events_of (f : string) (evs : list event) : list event :=
  List.filter (fun ev => bool_decide (item_of ev = Some f)) evs.

(** The events of one whole call of [process_single_file] for [f] that
    draws backend [m]. *)
Definition call_events (self : AdvancedDocumentRefiner) (m : ModelConfig) (f : string)
  : list event :=
  [EvAcquire f; EvNextModel f m] ++ snd (process_item self m f)
  ++ [EvRelease f; EvReturn f (fst (process_item self m f))].

(** The events a task at [p] has caused so far. *)
Definition pc_trace (self : AdvancedDocumentRefiner) (f : string) (p : pc)
    (evs : list event) : Prop :=
  let ev_read := EvRead f (PyStr.path_join (input_dir self) f) in
  match p with
  | AwaitPermit => evs = []
  | AwaitRead m => evs = [EvAcquire f; EvNextModel f m]
  | AwaitBackend m _ => evs = [EvAcquire f; EvNextModel f m; ev_read]
  | AwaitWrite m _ =>
      evs = [EvAcquire f; EvNextModel f m; ev_read; EvCall f (provider m) (name m)]
  | AwaitSleep m refined_content output_filename =>
      evs = [EvAcquire f; EvNextModel f m; ev_read; EvCall f (provider m) (name m);
             EvWrite f (PyStr.path_join (output_dir self) output_filename) refined_content]
  | Returned r =>
      ∃ m, m ∈ models self ∧ r = fst (process_item self m f) ∧ evs = call_events self m f
  | Raised _ => evs = [EvAcquire f; EvRelease f]
  end.

(** The backends drawn so far, in the order of the calls of
    [get_next_model]. *)
Definition drawn (evs : list event) : list ModelConfig :=
  omap (fun ev => match ev with EvNextModel _ m => Some m | _ => None end) evs.

(** The invariant of a run started from [self0] on [files]. *)
Record run_inv (self0 : AdvancedDocumentRefiner) (files : list string)
    (st : RunState) : Prop := {
  inv_config : same_config (self_of st) self0;
  inv_index : current_model_index (self_of st) < length (models self0);
  inv_names : fst <$> tasks st = files;
  inv_alive : aborted st = None;
  inv_finished : Forall (fun o => ∃ r, o = Ok r) (finished st);
  inv_results :
    ∃ new, results (self_of st) = (results self0 ++ new)%list
           ∧ (new ++ pending_results (finished st))%list
             ≡ₚ omap returned_result (tasks st);
  inv_expect : Forall (fun t => pc_expect self0 (fst t) (snd t)) (tasks st)
}.

End Refiner.

(** ** Further parts of the program *)

(** [model_stats.get(model)] on the dict [generate_report] builds. *)
Fixpoint stats_get (model : string) (stats : list (string * ModelStat))
  : option ModelStat :=
  match stats with
  | [] => None
  | (k, v) :: rest => if String.eqb k model then Some v else stats_get model rest
  end.

(** What [print_progress_summary] prints: the three counts, and the
    success rate, printed only [if total > 0].  (In [run_batch_processing]
    it is called after [generate_report] and changes nothing.) *)
Record ProgressSummary := {
  ps_successful : nat;
  ps_failed : nat;
  ps_total : nat;
  ps_success_rate : option Q
}.

Definition print_progress_summary (self : AdvancedDocumentRefiner)
  : outcome ProgressSummary :=
  let successful := length (List.filter success (results self)) in
  let failed := length (List.filter (fun r => negb (success r)) (results self)) in
  let total := length (results self) in
  rate ←
    (if 0 <? total
     then (q ← truediv (Qnat successful) (Qnat total); Ok (Some (q * 100)%Q))
     else Ok None);
  Ok {| ps_successful := successful;
        ps_failed := failed;
        ps_total := total;
        ps_success_rate := rate |}.

(** The results tasks have returned, in the order of the returns. *)
Definition returns_of (evs : list event) : list ProcessingResult :=
  omap (fun ev => match ev with EvReturn _ r => Some r | _ => None end) evs.

(** The short identifier of the backend a task has drawn. *)
Definition backend_of (t : string * pc) : option string :=
  match snd t with
  | AwaitPermit | Raised _ => None
  | AwaitRead m | AwaitBackend m _ | AwaitWrite m _ | AwaitSleep m _ _ =>
      Some (short_name m)
  | Returned r => Some (model_used r)
  end.

(** ** A concrete setting for examples *)

Module Demo.

Definition clock : DateTime :=
  {| year := 2025; month := 1; day := 2; hour := 3; minute := 4; second := 5 |}.

(** Seven text files, an earlier output and a stray file in the input
    directory; [b.txt] cannot be read, the backend fails on [c.txt],
    and the output for [d.txt] cannot be written. *)
Definition oracles : World :=
  {| path_exists := fun _ => true;
     listdir := fun d =>
       if String.eqb d "Barba_Docs"
       then ["a.txt"; "b.txt"; "refined_x.txt"; "c.txt"; "notes.md";
             "d.txt"; "e.txt"; "f.txt"; "g.txt"]
       else [];
     open_read := fun item _ =>
       if String.eqb item "b.txt" then Raise "[Errno 13] Permission denied"
       else Ok ("raw text of " ++ item);
     open_write := fun item _ _ =>
       if String.eqb item "d.txt" then Raise "[Errno 28] No space left on device"
       else Ok tt;
     generate_content := fun item _ _ => Ok ("clean text of " ++ item);
     chat_completions_create := fun item _ _ =>
       if String.eqb item "c.txt" then Raise "Error code: 429"
       else Ok ("clean text of " ++ item);
     now := fun _ => clock;
     elapsed := fun _ => 12%Q;
     report_now := clock |}.

Definition env : Env :=
  {| world := oracles;
     imports := {| HAS_AIOFILES := true; HAS_GEMINI := true; HAS_OPENAI := true |};
     refining_instructions := "Clean up this documentation.";
     render := fun _ => "# Advanced Batch Document Refining Report" |}.

(** The third configured backend. *)
Definition deepseek_r1 : ModelConfig :=
  {| name := "deepseek/deepseek-r1-0528:free"; short_name := "deepseek_r1";
     provider := "openrouter"; rate_limit_delay := 8 |}.

(** The same, with [google.generativeai] not installed. *)
Definition env_without_gemini : Env :=
  {| world := oracles;
     imports := {| HAS_AIOFILES := true; HAS_GEMINI := false; HAS_OPENAI := true |};
     refining_instructions := "Clean up this documentation.";
     render := fun _ => "# Advanced Batch Document Refining Report" |}.

(** What [AdvancedDocumentRefiner(mode="all")] constructs here. *)
Definition refiner : AdvancedDocumentRefiner :=
  {| mode := "all"; models := all_models;
     input_dir := "Barba_Docs"; output_dir := "Barba_Docs_Refined";
     max_parallel := 5;
     openrouter_api_key := "add_your_openrouter_api_key_here";
     results := []; current_model_index := 0; semaphore := 5 |}.

Definition files : list string :=
  ["a.txt"; "b.txt"; "c.txt"; "d.txt"; "e.txt"; "f.txt"; "g.txt"].

(** All seven tasks are resumed once, then the first two again. *)
Definition schedule : list label :=
  [LTask 6; LTask 5; LTask 4; LTask 3; LTask 2; LTask 1; LTask 0; LTask 6; LTask 5].

(** A first run, and the same directories at the start of a second run:
    the outputs and the report of the first are still there. *)
Definition first_run : RunState := run_loop env schedule (start refiner files []).

Definition retained_outputs : list string :=
  (omap output_file (results (self_of first_run))
   ++ ["batch_refining_report_20250102_030405.txt"])%list.

Definition env_second_run : Env :=
  {| world :=
       {| path_exists := path_exists oracles;
          listdir := fun d =>
            if String.eqb d "Barba_Docs_Refined" then retained_outputs
            else listdir oracles d;
          open_read := open_read oracles;
          open_write := open_write oracles;
          generate_content := generate_content oracles;
          chat_completions_create := chat_completions_create oracles;
          now := now oracles;
          elapsed := elapsed oracles;
          report_now := report_now oracles |};
     imports := imports env;
     refining_instructions := refining_instructions env;
     render := render env |}.

End Demo.

(** * Properties *)

Local Open Scope list_scope.

(** ** The string methods on small inputs *)

Example startswith_ex : PyStr.startswith "refined_" "refined_x.txt" = true.
Proof. reflexivity. Qed.
Example endswith_ex : PyStr.endswith ".txt" "a.txt" = true /\ PyStr.endswith ".txt" "txt" = false.
Proof. split; reflexivity. Qed.
Example split_ex : PyStr.split "_" "a__b_" = ["a"; ""; "b"; ""].
Proof. reflexivity. Qed.
Example join_ex : PyStr.join "_" ["a"; ""; "b"] = "a__b".
Proof. reflexivity. Qed.
Example replace_ex : PyStr.replace ".txt" "" "a.txt.t.txtxt" = "a.txt".
Proof. reflexivity. Qed.
Example rsplit_ex : PyStr.rsplit1_head "_" "a_b_c" = "a_b" /\ PyStr.rsplit1_head "_" "abc" = "abc".
Proof. split; reflexivity. Qed.
Example splitext_ex :
  PyStr.splitext_root "foo.txt" = "foo" /\ PyStr.splitext_root ".txt" = ".txt"
  /\ PyStr.splitext_root "a.b.txt" = "a.b" /\ PyStr.splitext_root "..txt" = "..txt"
  /\ PyStr.splitext_root "d.x/foo" = "d.x/foo".
Proof. repeat split; reflexivity. Qed.
Example stamp_ex :
  strftime_stamp {| year := 2025; month := 1; day := 2; hour := 3; minute := 4; second := 5 |}
  = "20250102_030405".
Proof. reflexivity. Qed.
Example partition_ex :
  PyStr.partition_tail "_" "gemini_25_pro" = "25_pro"%string
  /\ PyStr.partition_tail "_" "abc" = ""%string.
Proof. split; reflexivity. Qed.
Example original_of_ex :
  original_of "refined_X_foo_20250102_030405.txt" = Some "foo_20250102.txt"%string
  /\ original_of "refined_deepseek_r1_foo_20250102_030405.txt"
     = Some "r1_foo_20250102.txt"%string
  /\ original_of "refined_x.txt" = None
  /\ original_of "notes.txt" = None.
Proof. repeat split; reflexivity. Qed.

(** ** Backend rotation *)

Lemma get_next_model_in_range (self : AdvancedDocumentRefiner) :
  current_model_index self < length (models self) →
  ∃ m, models self !! current_model_index self = Some m
       ∧ get_next_model self
         = Ok (m, set_current_model_index
                    ((current_model_index self + 1) mod length (models self)) self).
Proof.
  intros Hlt. destruct (lookup_lt_is_Some_2 _ _ Hlt) as [m Hm].
  exists m. split; [done|]. unfold get_next_model. by rewrite Hm.
Qed.

Lemma rotation_from (n : nat) : ∀ self : AdvancedDocumentRefiner,
  current_model_index self < length (models self) →
  ∃ ms self',
    rotation n self = Ok (ms, self')
    ∧ length ms = n
    ∧ (∀ k, k < n →
         ms !! k = models self !! ((current_model_index self + k) mod length (models self)))
    ∧ self' = set_current_model_index
                ((current_model_index self + n) mod length (models self)) self.
Proof.
  induction n as [|n IH]; intros self Hlt.
  - exists [], self. split_and!; [done|done|intros k Hk; lia|].
    rewrite Nat.add_0_r, Nat.mod_small by done. by destruct self.
  - destruct (get_next_model_in_range self Hlt) as (m & Hm & Hcall).
    set (self1 := set_current_model_index
                    ((current_model_index self + 1) mod length (models self)) self) in *.
    assert (Hlen : length (models self) ≠ 0) by lia.
    destruct (IH self1) as (ms & self2 & Hrot & Hl & Hnth & Hself2).
    { simpl. by apply Nat.mod_upper_bound. }
    exists (m :: ms), self2. simpl in Hnth, Hself2.
    split_and!.
    + simpl. rewrite Hcall. simpl. rewrite Hrot. done.
    + simpl. by rewrite Hl.
    + intros [|k] Hk.
      * simpl. rewrite Nat.add_0_r, Nat.mod_small by done. done.
      * simpl. rewrite Hnth by lia. f_equal.
        rewrite Nat.Div0.add_mod_idemp_l. f_equal. lia.
    + rewrite Hself2. unfold self1, set_current_model_index. simpl.
      rewrite Nat.Div0.add_mod_idemp_l. do 2 f_equal. lia.
Qed.

(** ** The dispatch loop: what one step does *)

Lemma insert_middle {A} (l : list A) (i : nat) (x y : A) :
  l !! i = Some x →
  ∃ l1 l2, l = l1 ++ x :: l2 ∧ <[i:=y]> l = l1 ++ y :: l2 ∧ length l1 = i.
Proof.
  intros Hi. exists (take i l), (drop (S i) l).
  pose proof (lookup_lt_Some _ _ _ Hi) as Hlt.
  split_and!.
  - by rewrite take_drop_middle.
  - by apply insert_take_drop.
  - rewrite length_take. lia.
Qed.

Lemma get_next_model_Ok (self self' : AdvancedDocumentRefiner) (m : ModelConfig) :
  get_next_model self = Ok (m, self') →
  models self !! current_model_index self = Some m
  ∧ self' = set_current_model_index
              ((current_model_index self + 1) mod length (models self)) self.
Proof.
  unfold get_next_model. destruct (models self !! current_model_index self) eqn:E; [|done].
  intros [= <- <-]. done.
Qed.

Lemma get_next_model_Raise (self : AdvancedDocumentRefiner) (e : string) :
  get_next_model self = Raise e → length (models self) ≤ current_model_index self.
Proof.
  unfold get_next_model. destruct (models self !! current_model_index self) eqn:E; [done|].
  intros _. by apply lookup_ge_None.
Qed.

Section Dispatch.

Variable E : Env.


Lemma step_task_cases (i : nat) (st st' : RunState) :
  step_task E i st = Some st' → task_step E st st'.
Proof.
  unfold step_task.
  destruct (aborted st) eqn:Hab; [done|].
  destruct (tasks st !! i) as [[f p]|] eqn:Hi; [|done].
  assert (Hres : (match resume E (self_of st) f p with
                  | Some (Suspends p' ev) => Some (advance i f p' [ev] st)
                  | Some (Returns r ev) => Some (finish_task i f r [ev] st)
                  | None => None
                  end = Some st') → task_step E st st').
  { destruct (resume E (self_of st) f p) as [[p' ev|r ev]|] eqn:Hr; [| |done].
    - intros [= <-].
      destruct (insert_middle _ _ _ (f, p') Hi) as (l1 & l2 & Hl & Hins & _).
      eapply ts_suspend; [done|exact Hl|exact Hr|].
      unfold advance. by rewrite Hins, Hab.
    - intros [= <-].
      destruct (insert_middle _ _ _ (f, Returned r) Hi) as (l1 & l2 & Hl & Hins & _).
      eapply ts_return; [done|exact Hl|exact Hr|].
      unfold finish_task. by rewrite Hins, Hab. }
  destruct p; try exact Hres.
  destruct (semaphore (self_of st)) as [|free] eqn:Hsem; [done|].
  destruct (get_next_model (set_semaphore free (self_of st))) as [[m self']|e] eqn:Hg.
  - intros [= <-].
    destruct (insert_middle _ _ _ (f, AwaitRead m) Hi) as (l1 & l2 & Hl & Hins & _).
    eapply ts_acquire; [done|exact Hl|exact Hsem|exact Hg|].
    by rewrite Hins.
  - intros [= <-].
    destruct (insert_middle _ _ _ (f, Raised e) Hi) as (l1 & l2 & Hl & Hins & _).
    eapply ts_index_error; [done|exact Hl|exact Hsem|exact Hg|].
    by rewrite Hins.
Qed.

(** ** Facts about [resume] *)

Lemma resume_is_Some (self : AdvancedDocumentRefiner) (f : string) (p : pc) :
  is_Some (resume E self f p) ↔ holds_permit p = true.
Proof.
  destruct p; simpl; split; intros H; try done; try (by destruct H); eauto.
Qed.

Lemma resume_suspends (self : AdvancedDocumentRefiner) (f : string) (p p' : pc) ev :
  resume E self f p = Some (Suspends p' ev) →
  holds_permit p = true ∧ holds_permit p' = true ∧ pc_weight p' < pc_weight p.
Proof.
  destruct p; simpl; try done.
  - destruct (read_file_async E _ _); intros [= <- <-]; simpl; auto with lia.
  - destruct (call_backend E _ _ _); intros [= <- <-]; simpl; auto with lia.
  - destruct (write_file_async E _ _ _); intros [= <- <-]; simpl; auto with lia.
Qed.

Lemma resume_returns (self : AdvancedDocumentRefiner) (f : string) (p : pc) r ev :
  resume E self f p = Some (Returns r ev) →
  holds_permit p = true ∧ 2 ≤ pc_weight p ∧ filename r = f.
Proof.
  destruct p; simpl; try done.
  - destruct (read_file_async E _ _); intros [= <- <-]; simpl; auto with lia.
  - destruct (call_backend E _ _ _); intros [= <- <-]; simpl; auto with lia.
  - destruct (write_file_async E _ _ _); intros [= <- <-]; simpl; auto with lia.
  - intros [= <- <-]; simpl; auto with lia.
Qed.

(** ** Permits *)

Lemma in_flight_middle (st : RunState) l1 l2 (t : string * pc) :
  tasks st = l1 ++ t :: l2 →
  in_flight st
  = length (List.filter (fun t => holds_permit (snd t)) l1)
    + (if holds_permit (snd t) then 1 else 0)
    + length (List.filter (fun t => holds_permit (snd t)) l2).
Proof.
  intros Ht. unfold in_flight. rewrite Ht, List.filter_app, length_app. simpl.
  destruct (holds_permit (snd t)); simpl; lia.
Qed.

Lemma task_step_permits (st st' : RunState) :
  task_step E st st' →
  in_flight st' + semaphore (self_of st') = in_flight st + semaphore (self_of st)
  ∧ max_parallel (self_of st') = max_parallel (self_of st).
Proof.
  intros [l1 l2 f free m self' Hab Ht Hsem Hg ->
         |l1 l2 f free e Hab Ht Hsem Hg ->
         |l1 l2 f p p' ev Hab Ht Hr ->
         |l1 l2 f p r ev Hab Ht Hr ->].
  - apply get_next_model_Ok in Hg as [_ ->].
    rewrite (in_flight_middle st _ _ _ Ht).
    erewrite in_flight_middle by reflexivity. simpl. rewrite Hsem. lia.
  - rewrite (in_flight_middle st _ _ _ Ht).
    erewrite in_flight_middle by reflexivity. simpl. lia.
  - apply resume_suspends in Hr as (Hp & Hp' & _).
    rewrite (in_flight_middle st _ _ _ Ht).
    erewrite in_flight_middle by reflexivity. simpl. rewrite Hp, Hp'. lia.
  - apply resume_returns in Hr as (Hp & _ & _).
    rewrite (in_flight_middle st _ _ _ Ht).
    erewrite in_flight_middle by reflexivity. simpl. rewrite Hp. lia.
Qed.

Lemma step_collect_cases (st st' : RunState) :
  step_collect st = Some st' →
  aborted st = None
  ∧ ∃ o rest, finished st = o :: rest
    ∧ tasks st' = tasks st ∧ finished st' = rest ∧ log st' = log st
    ∧ match o with
      | Ok r => self_of st' = set_results (results (self_of st) ++ [r]) (self_of st)
                ∧ aborted st' = None
      | Raise e => self_of st' = self_of st ∧ aborted st' = Some e
      end.
Proof.
  unfold step_collect. destruct (aborted st); [done|].
  destruct (finished st) as [|[r|e] rest]; [done| |]; intros [= <-];
    (split; [done|]); eexists _, _; simpl; split_and!; done.
Qed.

Lemma step_permits (st st' : RunState) :
  step E st st' →
  in_flight st' + semaphore (self_of st') = in_flight st + semaphore (self_of st)
  ∧ max_parallel (self_of st') = max_parallel (self_of st).
Proof.
  intros [[i|] Hl]; simpl in Hl.
  - by apply task_step_permits, (step_task_cases i).
  - apply step_collect_cases in Hl as (_ & o & rest & _ & Ht & _ & _ & Ho).
    unfold in_flight. rewrite Ht.
    destruct o; destruct Ho as [-> _]; done.
Qed.

Lemma reachable_permits (st0 st : RunState) :
  reachable E st0 st →
  in_flight st + semaphore (self_of st) = in_flight st0 + semaphore (self_of st0)
  ∧ max_parallel (self_of st) = max_parallel (self_of st0).
Proof.
  induction 1 as [|x y z Hxy _ IH]; [done|].
  apply step_permits in Hxy. lia.
Qed.

Lemma in_flight_start (self : AdvancedDocumentRefiner) files evs :
  in_flight (start self files evs) = 0.
Proof.
  unfold in_flight, start. simpl. induction files; simpl; auto.
Qed.

(** ** Schedules stay within the step E relation *)

Lemma reachable_exec_schedule (sched : list label) (st : RunState) :
  reachable E st (exec_schedule E sched st).
Proof.
  revert st. induction sched as [|l sched IH]; intros st; simpl.
  - apply rtc_refl.
  - destruct (step_fn E l st) as [st'|] eqn:Heq; simpl.
    + eapply rtc_l; [by exists l|]. apply IH.
    + apply IH.
Qed.

Lemma first_enabled_Some (ls : list label) (st st' : RunState) :
  first_enabled E ls st = Some st' → step E st st'.
Proof.
  induction ls as [|l ls IH]; simpl; [done|].
  destruct (step_fn E l st) eqn:Heq.
  - intros [= <-]. by exists l.
  - exact IH.
Qed.

Lemma first_enabled_None (ls : list label) (st : RunState) (l : label) :
  first_enabled E ls st = None → l ∈ ls → step_fn E l st = None.
Proof.
  induction ls as [|l' ls IH]; simpl; [by intros _ ?%elem_of_nil|].
  destruct (step_fn E l' st) eqn:Heq; [done|].
  intros Hn [->|Hin]%elem_of_cons; auto.
Qed.

Lemma step_task_out_of_range (i : nat) (st : RunState) :
  length (tasks st) ≤ i → step_task E i st = None.
Proof.
  intros Hi. unfold step_task.
  destruct (aborted st); [done|]. by rewrite (lookup_ge_None_2 _ _ Hi).
Qed.

Lemma candidates_none_terminal (st : RunState) :
  first_enabled E (candidates st) st = None → terminal E st.
Proof.
  intros Hn [i|].
  - destruct (decide (i < length (tasks st))) as [Hlt|Hge].
    + apply (first_enabled_None _ _ _ Hn). unfold candidates.
      apply elem_of_cons. right. apply list_elem_of_fmap. exists i. split; [done|].
      apply elem_of_seq. lia.
    + apply step_task_out_of_range. lia.
  - apply (first_enabled_None _ _ _ Hn). unfold candidates. apply elem_of_cons. by left.
Qed.

Lemma drain_S (k : nat) (st : RunState) :
  drain E (S k) st
  = match first_enabled E (candidates st) st with
    | Some st' => drain E k st'
    | None => st
    end.
Proof. reflexivity. Qed.

Lemma reachable_drain (fuel : nat) (st : RunState) : reachable E st (drain E fuel st).
Proof.
  revert st. induction fuel as [|k IH]; intros st; [apply rtc_refl|].
  rewrite drain_S.
  destruct (first_enabled E (candidates st) st) as [st'|] eqn:Heq; [|apply rtc_refl].
  eapply rtc_l; [by eapply first_enabled_Some|]. apply IH.
Qed.

Lemma reachable_run_loop (sched : list label) (st : RunState) :
  reachable E st (run_loop E sched st).
Proof.
  unfold run_loop, reachable.
  etrans; [apply reachable_exec_schedule|apply reachable_drain].
Qed.

(** ** Every step E uses up some of the run *)

Lemma run_weight_middle (st : RunState) l1 l2 (t : string * pc) :
  aborted st = None →
  tasks st = l1 ++ t :: l2 →
  run_weight st
  = sum_list_with (fun t => pc_weight (snd t)) l1 + pc_weight (snd t)
    + sum_list_with (fun t => pc_weight (snd t)) l2 + length (finished st).
Proof.
  intros Hab Ht. unfold run_weight. rewrite Hab, Ht, sum_list_with_app. simpl. lia.
Qed.

Lemma task_step_decreases (st st' : RunState) :
  task_step E st st' → run_weight st' < run_weight st.
Proof.
  intros [l1 l2 f free m self' Hab Ht Hsem Hg ->
         |l1 l2 f free e Hab Ht Hsem Hg ->
         |l1 l2 f p p' ev Hab Ht Hr ->
         |l1 l2 f p r ev Hab Ht Hr ->];
    rewrite (run_weight_middle st _ _ _ Hab Ht);
    erewrite run_weight_middle by reflexivity; simpl.
  - lia.
  - rewrite length_app. simpl. lia.
  - apply resume_suspends in Hr as (_ & _ & Hw). lia.
  - apply resume_returns in Hr as (_ & Hw & _). rewrite length_app. simpl. lia.
Qed.

Lemma step_decreases (st st' : RunState) : step E st st' → run_weight st' < run_weight st.
Proof.
  intros [[i|] Hl]; simpl in Hl.
  - by apply task_step_decreases, (step_task_cases i).
  - apply step_collect_cases in Hl as (Hab & o & rest & Hf & Ht & Hf' & _ & Ho).
    unfold run_weight. rewrite Hab, Hf, Hf', Ht. simpl.
    destruct o; destruct Ho as [_ ->]; lia.
Qed.

Lemma drain_terminal (fuel : nat) : ∀ st, run_weight st ≤ fuel → terminal E (drain E fuel st).
Proof.
  induction fuel as [|k IH]; intros st Hw.
  - intros l. simpl. destruct (step_fn E l st) as [st'|] eqn:Heq; [|done].
    assert (step E st st') as Hs%step_decreases by (by exists l). lia.
  - rewrite drain_S.
    destruct (first_enabled E (candidates st) st) as [st'|] eqn:Heq.
    + apply IH. apply first_enabled_Some, step_decreases in Heq. lia.
    + by apply candidates_none_terminal.
Qed.

Lemma run_loop_terminal (sched : list label) (st : RunState) :
  terminal E (run_loop E sched st).
Proof. unfold run_loop. by apply drain_terminal. Qed.

(** ** The invariant *)

Lemma resume_same_config (a b : AdvancedDocumentRefiner) (f : string) (p : pc) :
  same_config a b → resume E a f p = resume E b f p.
Proof.
  intros (_ & _ & Hi & Ho & _). destruct p; simpl; try done.
  - by rewrite Hi.
  - by rewrite Ho.
Qed.

Lemma resume_expect_suspends (self : AdvancedDocumentRefiner) (f : string) (p p' : pc) ev :
  pc_expect E self f p → resume E self f p = Some (Suspends p' ev) → pc_expect E self f p'.
Proof.
  destruct p; simpl; try done.
  - intros Hm. destruct (read_file_async E _ _) eqn:Heq; intros [= <- <-]. simpl. auto.
  - intros [Hm Hrd]. destruct (call_backend E _ _ _) eqn:Heq; intros [= <- <-]. simpl. eauto.
  - intros (Hm & content & Hrd & Hc).
    destruct (write_file_async E _ _ _) as [[]|] eqn:Heq; intros [= <- <-]. simpl.
    split_and!; [done|done|]. exists content. done.
Qed.

Lemma resume_expect_returns (self : AdvancedDocumentRefiner) (f : string) (p : pc) r ev :
  pc_expect E self f p → resume E self f p = Some (Returns r ev) →
  pc_expect E self f (Returned r).
Proof.
  destruct p; simpl; try done.
  - intros Hm. destruct (read_file_async E _ _) eqn:Heq; intros [= <- <-].
    exists m. split; [done|]. unfold process_item. by rewrite Heq.
  - intros [Hm Hrd]. destruct (call_backend E _ _ _) eqn:Heq; intros [= <- <-].
    exists m. split; [done|]. unfold process_item. by rewrite Hrd, Heq.
  - intros (Hm & content & Hrd & Hc).
    destruct (write_file_async E _ _ _) as [[]|] eqn:Heq; intros [= <- <-].
    exists m. split; [done|]. unfold process_item. by rewrite Hrd, Hc, Heq.
  - intros (Hm & -> & content & Hrd & Hc & Hw) [= <- <-].
    exists m. split; [done|]. unfold process_item. by rewrite Hrd, Hc, Hw.
Qed.

Lemma holds_permit_not_returned (f : string) (p : pc) :
  holds_permit p = true → returned_result (f, p) = None.
Proof. by destruct p. Qed.

Lemma run_inv_start (self : AdvancedDocumentRefiner) files evs :
  current_model_index self < length (models self) →
  run_inv E self files (start self files evs).
Proof.
  intros Hi. split; simpl; try done.
  - induction files as [|f fs IH]; [done|]. simpl. f_equal. exact IH.
  - exists []. rewrite !app_nil_r. split; [done|].
    induction files; simpl; auto.
  - induction files; simpl; constructor; auto. done.
Qed.

Lemma task_step_inv (self0 : AdvancedDocumentRefiner) files (st st' : RunState) :
  run_inv E self0 files st → task_step E st st' → run_inv E self0 files st'.
Proof.
  intros [Hcfg Hidx Hnames Halive Hfin (new & Hres & Hperm) Hexp].
  assert (Hms : models (self_of st) = models self0) by apply Hcfg.
  intros [l1 l2 f free m self' Hab Ht Hsem Hg ->
         |l1 l2 f free e Hab Ht Hsem Hg ->
         |l1 l2 f p p' ev Hab Ht Hr ->
         |l1 l2 f p r ev Hab Ht Hr ->].
  - apply get_next_model_Ok in Hg as [Hm ->]. simpl in Hm.
    rewrite Ht in Hnames, Hperm, Hexp.
    rewrite fmap_app in Hnames. rewrite omap_app in Hperm.
    apply Forall_app in Hexp as [H1 H2]. apply Forall_cons in H2 as [_ H2].
    split; simpl; try done.
    + rewrite Hms. apply Nat.mod_upper_bound. lia.
    + by rewrite fmap_app.
    + exists new. by rewrite omap_app.
    + apply Forall_app. split; [done|]. apply Forall_cons. split; [|done].
      simpl. rewrite <- Hms. by eapply list_elem_of_lookup_2.
  - apply get_next_model_Raise in Hg. simpl in Hg. rewrite Hms in Hg. lia.
  - rewrite (resume_same_config _ self0) in Hr by done.
    rewrite Ht in Hnames, Hperm, Hexp.
    rewrite fmap_app in Hnames. rewrite omap_app in Hperm.
    apply Forall_app in Hexp as [H1 H2]. apply Forall_cons in H2 as [Hp H2].
    pose proof (resume_suspends _ _ _ _ _ Hr) as (Hh & Hh' & _).
    simpl in Hperm. rewrite (holds_permit_not_returned f p Hh) in Hperm.
    split; simpl; try done.
    + by rewrite fmap_app.
    + exists new. rewrite omap_app. simpl.
      by rewrite (holds_permit_not_returned f p' Hh').
    + apply Forall_app. split; [done|]. apply Forall_cons. split; [|done].
      by eapply resume_expect_suspends.
  - rewrite (resume_same_config _ self0) in Hr by done.
    rewrite Ht in Hnames, Hperm, Hexp.
    rewrite fmap_app in Hnames. rewrite omap_app in Hperm.
    apply Forall_app in Hexp as [H1 H2]. apply Forall_cons in H2 as [Hp H2].
    pose proof (resume_returns _ _ _ _ _ Hr) as (Hh & _ & _).
    simpl in Hperm. rewrite (holds_permit_not_returned f p Hh) in Hperm.
    split; simpl; try done.
    + by rewrite fmap_app.
    + apply Forall_app. split; [done|]. apply Forall_cons. split; [by exists r|done].
    + exists new. split; [done|]. unfold pending_results in *.
      rewrite !omap_app. simpl. rewrite app_assoc, Hperm.
      rewrite <- app_assoc. simpl. apply Permutation_app_head.
      symmetry. apply Permutation_cons_append.
    + apply Forall_app. split; [done|]. apply Forall_cons. split; [|done].
      by eapply resume_expect_returns.
Qed.

Lemma step_inv (self0 : AdvancedDocumentRefiner) files (st st' : RunState) :
  run_inv E self0 files st → step E st st' → run_inv E self0 files st'.
Proof.
  intros Hinv [[i|] Hl]; simpl in Hl.
  - eapply task_step_inv; [done|]. by eapply step_task_cases.
  - destruct Hinv as [Hcfg Hidx Hnames Halive Hfin (new & Hres & Hperm) Hexp].
    apply step_collect_cases in Hl as (_ & o & rest & Hf & Ht & Hf' & _ & Ho).
    rewrite Hf in Hfin, Hperm. apply Forall_cons in Hfin as [[r ->] Hfin].
    destruct Ho as [Hself Hab].
    split; rewrite ?Hself, ?Ht, ?Hf'; simpl; try done.
    exists (new ++ [r]). split.
    + by rewrite Hres, app_assoc.
    + rewrite <- app_assoc. exact Hperm.
Qed.

Lemma reachable_inv (self0 : AdvancedDocumentRefiner) files (st0 st : RunState) :
  run_inv E self0 files st0 → reachable E st0 st → run_inv E self0 files st.
Proof.
  intros Hinv Hr. induction Hr as [|x y z Hxy _ IH]; [done|].
  apply IH. by eapply step_inv.
Qed.

(** ** Where a run can stop *)

Lemma step_task_enabled (i : nat) (st : RunState) (f : string) (p : pc) :
  aborted st = None →
  tasks st !! i = Some (f, p) →
  holds_permit p = true ∨ (p = AwaitPermit ∧ 0 < semaphore (self_of st)) →
  is_Some (step_task E i st).
Proof.
  intros Hab Hi Hp. unfold step_task. rewrite Hab, Hi.
  destruct Hp as [Hp|[-> Hsem]].
  - apply (resume_is_Some (self_of st) f) in Hp as [[p' ev|r ev] Hr].
    + destruct p; try done; rewrite Hr; eauto.
    + destruct p; try done; rewrite Hr; eauto.
  - destruct (semaphore (self_of st)) as [|free]; [lia|].
    destruct (get_next_model _) as [[m self']|e]; eauto.
Qed.

Lemma filter_none {A} (h : A → bool) (l : list A) :
  Forall (fun x => h x = false) l → List.filter h l = [].
Proof.
  induction 1 as [|x l Hx _ IH]; simpl; [done|]. by rewrite Hx.
Qed.

Lemma terminal_all_returned (self0 : AdvancedDocumentRefiner) files (st : RunState) :
  run_inv E self0 files st →
  0 < in_flight st + semaphore (self_of st) →
  terminal E st →
  finished st = [] ∧ Forall (fun t => ∃ r, snd t = Returned r) (tasks st).
Proof.
  intros Hinv Hpos Hterm.
  pose proof (inv_alive _ _ _ _ Hinv) as Hab.
  assert (Hno : Forall (fun t => holds_permit (snd t) = false) (tasks st)).
  { apply Forall_lookup. intros i [f p] Hi. simpl.
    destruct (holds_permit p) eqn:Hp; [|done].
    destruct (step_task_enabled i st f p Hab Hi (or_introl Hp)) as [st' Hs].
    specialize (Hterm (LTask i)). simpl in Hterm. congruence. }
  assert (Hsem : 0 < semaphore (self_of st)).
  { unfold in_flight in Hpos. rewrite (filter_none _ _ Hno) in Hpos. simpl in Hpos. lia. }
  split.
  - specialize (Hterm LCollect). simpl in Hterm. unfold step_collect in Hterm.
    rewrite Hab in Hterm. by destruct (finished st) as [|[]].
  - apply Forall_lookup. intros i [f p] Hi. simpl.
    pose proof (proj1 (Forall_lookup _ _) Hno i _ Hi) as Hp.
    pose proof (proj1 (Forall_lookup _ _) (inv_expect _ _ _ _ Hinv) i _ Hi) as Hex.
    simpl in Hp, Hex. destruct p; try done; eauto.
    destruct (step_task_enabled i st f AwaitPermit Hab Hi) as [st' Hs]; [by right|].
    specialize (Hterm (LTask i)). simpl in Hterm. congruence.
Qed.

Lemma process_item_filename (self : AdvancedDocumentRefiner) (m : ModelConfig) f :
  filename (fst (process_item E self m f)) = f.
Proof.
  unfold process_item. destruct (read_file_async E _ _); [|done].
  destruct (call_backend E _ _ _); [|done].
  by destruct (write_file_async E _ _ _).
Qed.

Lemma returned_names (self : AdvancedDocumentRefiner) (ts : list (string * pc)) :
  Forall (fun t => pc_expect E self (fst t) (snd t)) ts →
  Forall (fun t => ∃ r, snd t = Returned r) ts →
  filename <$> omap returned_result ts = fst <$> ts
  ∧ length (omap returned_result ts) = length ts
  ∧ Forall (fun r => ∃ m, m ∈ models self
                          ∧ r = fst (process_item E self m (filename r)))
           (omap returned_result ts).
Proof.
  induction ts as [|[f p] ts IH]; intros Hex Hret; [by repeat constructor|].
  apply Forall_cons in Hex as [Hp Hex]. apply Forall_cons in Hret as [[r Hr] Hret].
  simpl in Hp, Hr. subst p. destruct (IH Hex Hret) as (IH1 & IH2 & IH3).
  destruct Hp as (m & Hm & ->).
  change (omap returned_result ((f, Returned (fst (process_item E self m f))) :: ts))
    with (fst (process_item E self m f) :: omap returned_result ts).
  split_and!.
  - rewrite fmap_cons, IH1. simpl. by rewrite process_item_filename.
  - simpl. by rewrite IH2.
  - apply Forall_cons. split; [|done]. exists m. by rewrite process_item_filename.
Qed.

(** Where the loop can stop when the rotation index is in range and
    the semaphore was created with a permit: nothing has raised, and
    the results are those on entry followed by one result per item,
    each the outcome of [process_item] for its item under some
    configured backend. *)
Lemma loop_end (self : AdvancedDocumentRefiner) files evs (st : RunState) :
  current_model_index self < length (models self) →
  0 < semaphore self →
  reachable E (start self files evs) st →
  terminal E st →
  aborted st = None ∧ finished st = []
  ∧ ∃ new, results (self_of st) = results self ++ new
           ∧ length new = length files
           ∧ filename <$> new ≡ₚ files
           ∧ Forall (fun r => ∃ m, m ∈ models self
                                   ∧ r = fst (process_item E self m (filename r))) new.
Proof.
  intros Hidx Hsem Hreach Hterm.
  pose proof (reachable_inv self files _ _ (run_inv_start self files evs Hidx) Hreach)
    as Hinv.
  pose proof (reachable_permits _ _ Hreach) as [Hperm _].
  rewrite in_flight_start in Hperm. simpl in Hperm.
  destruct (terminal_all_returned self files st Hinv) as [Hfin Hret]; [lia|done|].
  destruct (returned_names self (tasks st) (inv_expect _ _ _ _ Hinv) Hret)
    as (Hnames & Hlen & Hall).
  destruct (inv_results _ _ _ _ Hinv) as (new & Hres & Hp).
  rewrite Hfin in Hp. simpl in Hp. rewrite app_nil_r in Hp.
  split_and!; [by apply (inv_alive _ _ _ _ Hinv)|done|].
  exists new. split_and!.
  - done.
  - rewrite Hp, Hlen. rewrite <- (inv_names _ _ _ _ Hinv). by rewrite length_fmap.
  - rewrite Hp, Hnames. by rewrite (inv_names _ _ _ _ Hinv).
  - by rewrite Hp.
Qed.

End Dispatch.

(** ** The sequential reading of [process_single_file] *)

Lemma process_single_file_returns (E : Env) (self : AdvancedDocumentRefiner) (f : string) :
  current_model_index self < length (models self) →
  0 < semaphore self →
  ∃ m,
    models self !! current_model_index self = Some m
    ∧ process_single_file E self f
      = Some (Ok (fst (process_item E self m f),
                  set_current_model_index
                    ((current_model_index self + 1) mod length (models self)) self),
              [EvAcquire f; EvNextModel f m] ++ snd (process_item E self m f)
              ++ [EvRelease f; EvReturn f (fst (process_item E self m f))]).
Proof.
  intros Hidx Hsem. unfold process_single_file.
  destruct (semaphore self) as [|free] eqn:Hs; [lia|].
  destruct (get_next_model_in_range (set_semaphore free self)) as (m & Hm & Hg); [done|].
  simpl in Hm, Hg. exists m. split; [done|]. rewrite Hg.
  assert (Hpi : process_item E
                  (set_current_model_index
                     ((current_model_index self + 1) mod length (models self))
                     (set_semaphore free self)) m f
                = process_item E self m f) by reflexivity.
  rewrite Hpi. destruct (process_item E self m f) as [r evs]. simpl.
  do 3 f_equal. destruct self; simpl in *. unfold set_semaphore, set_current_model_index.
  simpl. rewrite !Nat.add_1_r. by subst.
Qed.

(** C1. A run that starts with an empty result collection ends with
    exactly one result per submitted work item.  [process_single_file]
    returns one result, for the item it was given, whether the item
    succeeds or fails; under every schedule the loop reaches a state in
    which nothing can run; in every such state no exception has left the
    loop and the collected results name the work items, each once; and
    when [run_batch_processing] returns, the number of results is the
    number of work items it enumerated. *)
Theorem one_result_per_work_item (E : Env) (self : AdvancedDocumentRefiner)
    (files : list string) (evs : list event) :
  current_model_index self < length (models self) →
  0 < semaphore self →
  results self = [] →
  (∀ f, ∃ r self' evs',
      process_single_file E self f = Some (Ok (r, self'), evs') ∧ filename r = f)
  ∧ (∀ sched,
      reachable E (start self files evs) (run_loop E sched (start self files evs))
      ∧ terminal E (run_loop E sched (start self files evs)))
  ∧ (∀ st,
      reachable E (start self files evs) st → terminal E st →
      aborted st = None
      ∧ length (results (self_of st)) = length files
      ∧ filename <$> results (self_of st) ≡ₚ files)
  ∧ (∀ sched self',
      fst (run_batch_processing E sched self) = Ok self' →
      length (results self') = length (get_files_to_process E self)).
Proof.
  intros Hidx Hsem Hres.
  assert (Hend : ∀ fs evs0 st,
    reachable E (start self fs evs0) st → terminal E st →
    aborted st = None
    ∧ length (results (self_of st)) = length fs
    ∧ filename <$> results (self_of st) ≡ₚ fs).
  { intros fs evs0 st Hr Ht.
    destruct (loop_end E self fs evs0 st Hidx Hsem Hr Ht)
      as (Hab & _ & new & Hnew & Hlen & Hperm & _).
    rewrite Hres in Hnew. simpl in Hnew. rewrite Hnew. done. }
  split_and!.
  - intros f. destruct (process_single_file_returns E self f Hidx Hsem) as (m & _ & Hp).
    eexists _, _, _. split; [exact Hp|]. apply process_item_filename.
  - intros sched. split; [apply reachable_run_loop|apply run_loop_terminal].
  - apply Hend.
  - intros sched self'. unfold run_batch_processing.
    destruct (get_files_to_process E self) as [|f fs] eqn:Hfs.
    + simpl. intros [= <-]. by rewrite Hres.
    + set (evs0 := EvMakedirs (output_dir self) :: enumeration_events E self).
      set (st0 := start self (f :: fs) evs0).
      destruct (Hend (f :: fs) evs0 (run_loop E sched st0)) as (Hab & Hlen & _);
        [apply reachable_run_loop|apply run_loop_terminal|].
      rewrite Hab. destruct (generate_report E _); simpl; [|done].
      by intros [= <-].
Qed.

Lemma one_result_per_work_item_witness :
  current_model_index Demo.refiner < length (models Demo.refiner)
  ∧ 0 < semaphore Demo.refiner
  ∧ results Demo.refiner = []
  ∧ length (results (self_of (run_loop Demo.env Demo.schedule
                                (start Demo.refiner Demo.files []))))
    = length Demo.files.
Proof.
  assert (H1 : current_model_index Demo.refiner < length (models Demo.refiner))
    by (simpl; lia).
  assert (H2 : 0 < semaphore Demo.refiner) by (simpl; lia).
  split_and!; [exact H1|exact H2|reflexivity|].
  destruct (one_result_per_work_item Demo.env Demo.refiner Demo.files [] H1 H2 eq_refl)
    as (_ & Hrun & Hend & _).
  destruct (Hrun Demo.schedule) as [Hr Ht].
  exact (proj1 (proj2 (Hend _ Hr Ht))).
Defined.

(** C5. In every state a run can reach, the number of items inside the
    critical section plus the number of free permits is [max_parallel];
    so at most [max_parallel] items are inside at once, and when that
    many are, a task waiting for a permit cannot be resumed. *)
Theorem semaphore_bounds_in_flight (E : Env) (self : AdvancedDocumentRefiner)
    (files : list string) (evs : list event) (st : RunState) :
  semaphore self = max_parallel self →
  reachable E (start self files evs) st →
  in_flight st ≤ max_parallel self
  ∧ in_flight st + semaphore (self_of st) = max_parallel self
  ∧ (in_flight st = max_parallel self →
     ∀ i f, tasks st !! i = Some (f, AwaitPermit) → step_task E i st = None).
Proof.
  intros Hsem Hreach.
  destruct (reachable_permits E _ _ Hreach) as [Hperm _].
  rewrite in_flight_start in Hperm. simpl in Hperm. rewrite Hsem in Hperm.
  split_and!; [lia|lia|].
  intros Hfull i f Hi. unfold step_task. destruct (aborted st); [done|].
  rewrite Hi. destruct (semaphore (self_of st)) eqn:Hs; [done|lia].
Qed.

(** The bound is reached: with seven items submitted, five are inside
    and the other two wait. *)
Example five_in_flight :
  in_flight (exec_schedule Demo.env Demo.schedule (start Demo.refiner Demo.files [])) = 5
  ∧ semaphore (self_of (exec_schedule Demo.env Demo.schedule
                          (start Demo.refiner Demo.files []))) = 0.
Proof. vm_compute. split; reflexivity. Qed.

Lemma semaphore_bounds_in_flight_witness :
  semaphore Demo.refiner = max_parallel Demo.refiner
  ∧ in_flight (exec_schedule Demo.env Demo.schedule (start Demo.refiner Demo.files []))
    ≤ max_parallel Demo.refiner.
Proof.
  split; [reflexivity|].
  exact (proj1 (semaphore_bounds_in_flight Demo.env Demo.refiner Demo.files []
                  (exec_schedule Demo.env Demo.schedule (start Demo.refiner Demo.files []))
                  eq_refl (reachable_exec_schedule Demo.env Demo.schedule _))).
Defined.

(** ** The [try] block, case by case *)

Lemma process_item_cases (E : Env) (self : AdvancedDocumentRefiner) (m : ModelConfig)
    (f : string) :
  let input_path := PyStr.path_join (input_dir self) f in
  let ev_read := EvRead f input_path in
  let ev_call := EvCall f (provider m) (name m) in
  let out := output_filename_of E m f in
  let output_path := PyStr.path_join (output_dir self) out in
  (∃ e, read_file_async E f input_path = Raise e
        ∧ process_item E self m f = (failure_result E m f e, [ev_read]))
  ∨ (∃ content e,
        read_file_async E f input_path = Ok content
        ∧ call_backend E f content m = Raise e
        ∧ process_item E self m f = (failure_result E m f e, [ev_read; ev_call]))
  ∨ (∃ content refined e,
        read_file_async E f input_path = Ok content
        ∧ call_backend E f content m = Ok refined
        ∧ write_file_async E f output_path refined = Raise e
        ∧ process_item E self m f
          = (failure_result E m f e, [ev_read; ev_call; EvWrite f output_path refined]))
  ∨ (∃ content refined,
        read_file_async E f input_path = Ok content
        ∧ call_backend E f content m = Ok refined
        ∧ write_file_async E f output_path refined = Ok tt
        ∧ process_item E self m f
          = (success_result E m f out refined,
             [ev_read; ev_call; EvWrite f output_path refined;
              EvSleep f (rate_limit_delay m)])).
Proof.
  intros input_path ev_read ev_call out output_path. unfold process_item.
  fold input_path. destruct (read_file_async E f input_path) as [content|e] eqn:Hrd.
  2: { left. by exists e. }
  destruct (call_backend E f content m) as [refined|e] eqn:Hc.
  2: { right; left. by exists content, e. }
  fold out. fold output_path.
  destruct (write_file_async E f output_path refined) as [[]|e] eqn:Hw.
  - right; right; right. by exists content, refined.
  - right; right; left. by exists content, refined, e.
Qed.

Lemma process_single_file_inv (E : Env) (self self' : AdvancedDocumentRefiner)
    (f : string) (r : ProcessingResult) (evs : list event) :
  process_single_file E self f = Some (Ok (r, self'), evs) →
  ∃ m, m ∈ models self
       ∧ r = fst (process_item E self m f)
       ∧ evs = [EvAcquire f; EvNextModel f m] ++ snd (process_item E self m f)
               ++ [EvRelease f; EvReturn f r]
       ∧ semaphore self' = semaphore self.
Proof.
  unfold process_single_file. destruct (semaphore self) as [|free] eqn:Hs; [done|].
  destruct (get_next_model (set_semaphore free self)) as [[m self1]|e] eqn:Hg; [|done].
  apply get_next_model_Ok in Hg as [Hm ->]. simpl in Hm.
  change (process_item E (set_current_model_index _ (set_semaphore free self)) m f)
    with (process_item E self m f).
  destruct (process_item E self m f) as [r0 evs0] eqn:Hpi. intros [= <- <- <-].
  exists m. rewrite Hpi.
  split_and!; [by eapply list_elem_of_lookup_2|done|done|simpl; lia].
Qed.

Lemma process_item_coherent (E : Env) (self : AdvancedDocumentRefiner) (m : ModelConfig)
    (f : string) :
  field_coherent E self (fst (process_item E self m f)).
Proof.
  destruct (process_item_cases E self m f)
    as [(e & _ & ->)|[(c & e & _ & _ & ->)|[(c & t & e & _ & _ & _ & ->)
       |(c & t & _ & _ & Hw & ->)]]];
    (split; simpl; [|by eauto]); try done.
  intros _. eexists _, t. split_and!; done.
Qed.

(** What has been collected in a reachable state comes from
    [process_item], each result for its own item under a configured
    backend. *)
Lemma reachable_results (E : Env) (self : AdvancedDocumentRefiner) files evs
    (st : RunState) :
  current_model_index self < length (models self) →
  reachable E (start self files evs) st →
  ∃ new, results (self_of st) = results self ++ new
         ∧ Forall (fun r => ∃ m, m ∈ models self
                                 ∧ r = fst (process_item E self m (filename r))) new.
Proof.
  intros Hidx Hreach.
  pose proof (reachable_inv E self files _ _ (run_inv_start E self files evs Hidx) Hreach)
    as Hinv.
  destruct (inv_results _ _ _ _ Hinv) as (new & Hres & Hperm).
  exists new. split; [done|].
  assert (Hall : Forall (fun r => ∃ m, m ∈ models self
                                      ∧ r = fst (process_item E self m (filename r)))
                        (omap returned_result (tasks st))).
  { pose proof (inv_expect _ _ _ _ Hinv) as Hex. clear -Hex.
    induction Hex as [|[f p] ts Hp _ IH]; [constructor|].
    destruct p; simpl in *; try exact IH.
    change (omap returned_result ((f, Returned r) :: ts))
      with (r :: omap returned_result ts).
    constructor; [|exact IH]. destruct Hp as (m & Hm & ->).
    exists m. by rewrite process_item_filename. }
  rewrite <- Hperm in Hall. by apply Forall_app in Hall as [? _].
Qed.

(** C10. Every result of [process_single_file] is field-coherent: with
    [success] set, [output_file] is set, [error] is None and
    [content_length] is the length of the content whose write succeeded;
    without it, [error] is set, [output_file] is None and
    [content_length] is 0.  This holds for the result of a call, and for
    every result a run has collected. *)
Theorem results_are_field_coherent (E : Env) (self : AdvancedDocumentRefiner) :
  (∀ f r self' evs,
      process_single_file E self f = Some (Ok (r, self'), evs) →
      (success r = true →
       ∃ out content,
         output_file r = Some out ∧ error r = None
         ∧ EvWrite f (PyStr.path_join (output_dir self) out) content ∈ evs
         ∧ write_file_async E f (PyStr.path_join (output_dir self) out) content = Ok tt
         ∧ content_length r = String.length content)
      ∧ (success r = false →
         ∃ e, error r = Some e ∧ output_file r = None ∧ content_length r = 0))
  ∧ (∀ files evs st,
      current_model_index self < length (models self) →
      results self = [] →
      reachable E (start self files evs) st →
      Forall (field_coherent E self) (results (self_of st))).
Proof.
  split.
  - intros f r self' evs (m & _ & -> & -> & _)%process_single_file_inv.
    destruct (process_item_cases E self m f)
      as [(e & _ & ->)|[(c & e & _ & _ & ->)|[(c & t & e & _ & _ & _ & ->)
         |(c & t & _ & _ & Hw & ->)]]];
      (split; simpl; [|by eauto]); try done.
    intros _. eexists _, t. split_and!; try done.
    simpl. rewrite !elem_of_cons. auto 10.
  - intros files evs st Hidx Hres Hreach.
    destruct (reachable_results E self files evs st Hidx Hreach) as (new & -> & Hall).
    rewrite Hres. simpl. eapply Forall_impl; [exact Hall|].
    intros r (m & _ & Hr). rewrite Hr. apply process_item_coherent.
Qed.

Lemma results_are_field_coherent_witness :
  ∃ r self' evs,
    process_single_file Demo.env Demo.refiner "a.txt" = Some (Ok (r, self'), evs)
    ∧ success r = true
    ∧ ∃ out content,
        output_file r = Some out ∧ error r = None
        ∧ EvWrite "a.txt" (PyStr.path_join (output_dir Demo.refiner) out) content ∈ evs
        ∧ write_file_async Demo.env "a.txt"
            (PyStr.path_join (output_dir Demo.refiner) out) content = Ok tt
        ∧ content_length r = String.length content.
Proof.
  destruct (process_single_file_returns Demo.env Demo.refiner "a.txt")
    as (m & Hm & Hp); [simpl; lia|simpl; lia|].
  eexists _, _, _. split; [exact Hp|].
  assert (Hs : success (fst (process_item Demo.env Demo.refiner m "a.txt")) = true).
  { vm_compute in Hm. injection Hm as <-. reflexivity. }
  split; [exact Hs|].
  exact (proj1 (proj1 (results_are_field_coherent Demo.env Demo.refiner) _ _ _ _ Hp) Hs).
Defined.

(** ** The report *)

Lemma Qnat_nonzero (n : nat) : 0 < n → Qeq_bool (Qnat n) 0 = false.
Proof.
  intros Hn. destruct (Qeq_bool (Qnat n) 0) eqn:Heq; [|done].
  apply Qeq_bool_eq in Heq. unfold Qeq, Qnat in Heq. simpl in Heq. lia.
Qed.

Lemma truediv_nonzero (a : Q) (n : nat) : 0 < n → truediv a (Qnat n) = Ok (a / Qnat n)%Q.
Proof. intros Hn. unfold truediv. by rewrite Qnat_nonzero. Qed.

Lemma model_lines_total (kvs : list (string * ModelStat)) :
  ∃ ls, model_lines kvs = Ok ls.
Proof.
  induction kvs as [|[model stats] kvs [ls IH]]; [by eexists|].
  simpl. destruct (0 <? total stats) eqn:Ht.
  - apply Nat.ltb_lt in Ht. rewrite truediv_nonzero by done. simpl. rewrite IH. by eexists.
  - simpl. rewrite IH. by eexists.
Qed.

Lemma filter_partition_length {A} (h : A → bool) (l : list A) :
  length (List.filter h l) + length (List.filter (fun x => negb (h x)) l) = length l.
Proof.
  induction l as [|x l IH]; [done|]. simpl. destruct (h x); simpl; lia.
Qed.

(** With at least one result the report is computed, its counts add up,
    and it lists the successes and the failures. *)
Lemma build_report_nonempty (self : AdvancedDocumentRefiner) :
  results self ≠ [] →
  ∃ report,
    build_report self = Ok report
    ∧ rep_total_files report = length (results self)
    ∧ rep_successful report + rep_failed report = rep_total_files report
    ∧ rep_success_lines report = List.filter success (results self)
    ∧ rep_failed_lines report = List.filter (fun r => negb (success r)) (results self).
Proof.
  intros Hne. unfold build_report.
  assert (Hlen : 0 < length (results self)) by (destruct (results self); [done|simpl; lia]).
  destruct (results self) as [|r0 rs] eqn:Hrs; [done|]. rewrite <- Hrs in *.
  rewrite !truediv_nonzero by done. simpl.
  destruct (model_lines_total (model_stats_of (results self))) as [ls ->]. simpl.
  eexists. split; [reflexivity|]. simpl. split_and!; try done.
  apply filter_partition_length.
Qed.

Lemma build_report_empty (self : AdvancedDocumentRefiner) :
  results self = [] → build_report self = Raise "division by zero".
Proof. intros Hrs. unfold build_report. by rewrite Hrs. Qed.

(** C4 (the code departs from the specification). On an empty result collection
    [generate_report] does not produce a report: the average is guarded
    ([... if self.results else 0]) but the success rate in the report
    text, [len(successful)/len(self.results)*100], is not, and raises
    ZeroDivisionError before anything is written. *)
Theorem generate_report_empty_raises (E : Env) (self : AdvancedDocumentRefiner) :
  results self = [] →
  build_report self = Raise "division by zero"
  ∧ generate_report E self = Raise "division by zero".
Proof.
  intros Hrs. unfold generate_report. by rewrite (build_report_empty self Hrs).
Qed.

Lemma generate_report_empty_raises_witness :
  results Demo.refiner = []
  ∧ generate_report Demo.env Demo.refiner = Raise "division by zero".
Proof.
  split; [reflexivity|].
  exact (proj2 (generate_report_empty_raises Demo.env Demo.refiner eq_refl)).
Defined.

(** ** Failures stay with their item *)

Lemma call_backend_wraps (E : Env) (f content : string) (m : ModelConfig) :
  (provider m = "gemini" →
   ∀ e, generate_content E f "gemini-2.0-flash-exp" (get_refining_prompt E ++ content)%string
        = Raise e →
        call_backend E f content m = Raise ("Gemini processing error: " ++ e)%string)
  ∧ (provider m ≠ "gemini" →
     ∀ e, chat_completions_create E f (name m) (get_refining_prompt E ++ content)%string
          = Raise e →
          call_backend E f content m = Raise ("OpenRouter processing error: " ++ e)%string).
Proof.
  unfold call_backend, process_with_gemini, process_with_openrouter. split.
  - intros -> e ->. done.
  - intros Hp e ->. destruct (String.eqb_spec (provider m) "gemini"); done.
Qed.

(** C6. An exception raised while the item's file is read, while the
    backend is called, or while the output is written is caught inside
    [process_single_file]: the call still returns, and what it returns
    is the failure result, with [success] false and [error] the text of
    the exception (for a backend call, the text of the exception
    [process_with_gemini] or [process_with_openrouter] raised, which
    quotes the provider's).  In a run, whatever fails, no exception
    leaves the loop, every work item gets its result, each result is what
    [process_item] gives for its own item, and the report is computed
    with the failures listed. *)
Theorem item_failures_are_absorbed (E : Env) (self : AdvancedDocumentRefiner) :
  current_model_index self < length (models self) →
  0 < semaphore self →
  results self = [] →
  (∀ m f e,
      let input_path := PyStr.path_join (input_dir self) f in
      let output_path := PyStr.path_join (output_dir self) (output_filename_of E m f) in
      read_file_async E f input_path = Raise e
      ∨ (∃ content, read_file_async E f input_path = Ok content
                    ∧ call_backend E f content m = Raise e)
      ∨ (∃ content refined,
            read_file_async E f input_path = Ok content
            ∧ call_backend E f content m = Ok refined
            ∧ write_file_async E f output_path refined = Raise e) →
      fst (process_item E self m f) = failure_result E m f e
      ∧ filename (failure_result E m f e) = f
      ∧ success (failure_result E m f e) = false
      ∧ error (failure_result E m f e) = Some e)
  ∧ (∀ f, ∃ m self' evs,
        process_single_file E self f = Some (Ok (fst (process_item E self m f), self'), evs))
  ∧ (∀ files evs st,
        reachable E (start self files evs) st → terminal E st →
        aborted st = None
        ∧ filename <$> results (self_of st) ≡ₚ files
        ∧ Forall (fun r => ∃ m, m ∈ models self
                                ∧ r = fst (process_item E self m (filename r)))
                 (results (self_of st))
        ∧ (files ≠ [] →
           ∃ report,
             build_report (self_of st) = Ok report
             ∧ rep_total_files report = length files
             ∧ rep_failed_lines report
               = List.filter (fun r => negb (success r)) (results (self_of st)))).
Proof.
  intros Hidx Hsem Hres. split_and!.
  - intros m f e input_path output_path Hfail.
    split_and!; try done. unfold process_item. fold input_path.
    destruct Hfail as [->|[(c & -> & ->)|(c & t & -> & -> & Hw)]]; try done.
    fold output_path. by rewrite Hw.
  - intros f. destruct (process_single_file_returns E self f Hidx Hsem) as (m & _ & Hp).
    by eexists m, _, _.
  - intros files evs st Hreach Hterm.
    destruct (loop_end E self files evs st Hidx Hsem Hreach Hterm)
      as (Hab & _ & new & Hnew & Hlen & Hperm & Hall).
    rewrite Hres in Hnew. simpl in Hnew. rewrite Hnew.
    split_and!; try done.
    intros Hne.
    destruct (build_report_nonempty (self_of st)) as (report & Hrep & Htot & _ & _ & Hfl).
    { rewrite Hnew. destruct new; [|done]. destruct files; done. }
    exists report. rewrite <- Hnew. split_and!; try done.
    by rewrite Htot, Hnew.
Qed.

Lemma item_failures_are_absorbed_witness :
  current_model_index Demo.refiner < length (models Demo.refiner)
  ∧ 0 < semaphore Demo.refiner
  ∧ results Demo.refiner = []
  ∧ read_file_async Demo.env "b.txt" (PyStr.path_join (input_dir Demo.refiner) "b.txt")
    = Raise "[Errno 13] Permission denied"
  ∧ fst (process_item Demo.env Demo.refiner Demo.deepseek_r1 "b.txt")
    = failure_result Demo.env Demo.deepseek_r1 "b.txt" "[Errno 13] Permission denied".
Proof.
  assert (H1 : current_model_index Demo.refiner < length (models Demo.refiner))
    by (simpl; lia).
  assert (H2 : 0 < semaphore Demo.refiner) by (simpl; lia).
  split_and!; [exact H1|exact H2|reflexivity|reflexivity|].
  apply (proj1 (item_failures_are_absorbed Demo.env Demo.refiner H1 H2 eq_refl)
           Demo.deepseek_r1 "b.txt" "[Errno 13] Permission denied").
  left. reflexivity.
Defined.

(** ** Events of one call *)

Lemma process_item_events (E : Env) (self : AdvancedDocumentRefiner) (m : ModelConfig)
    (f : string) :
  let r := fst (process_item E self m f) in
  let body := snd (process_item E self m f) in
  (EvAcquire f ∉ body) ∧ (EvRelease f ∉ body)
  ∧ model_used r = short_name m
  ∧ (success r = true →
     ∃ pre out content,
       body = pre ++ [EvWrite f (PyStr.path_join (output_dir self) out) content;
                      EvSleep f (rate_limit_delay m)]
       ∧ output_file r = Some out
       ∧ write_file_async E f (PyStr.path_join (output_dir self) out) content = Ok tt
       ∧ ∀ i d, EvSleep i d ∉ pre)
  ∧ (success r = false → ∀ i d, EvSleep i d ∉ body).
Proof.
  destruct (process_item_cases E self m f)
    as [(e & _ & ->)|[(c & e & _ & _ & ->)|[(c & t & e & _ & _ & _ & ->)
       |(c & t & _ & _ & Hw & ->)]]]; simpl;
    (split_and!;
     [rewrite ?not_elem_of_cons; split_and!; try done; apply not_elem_of_nil
     |rewrite ?not_elem_of_cons; split_and!; try done; apply not_elem_of_nil
     |done| |]); try done.
  - intros _ i d. rewrite ?not_elem_of_cons. split_and!; try done. apply not_elem_of_nil.
  - intros _ i d. rewrite ?not_elem_of_cons. split_and!; try done. apply not_elem_of_nil.
  - intros _ i d. rewrite ?not_elem_of_cons. split_and!; try done. apply not_elem_of_nil.
  - intros _. eexists [_; _], _, t. split_and!; try done.
    intros i d. rewrite ?not_elem_of_cons. split_and!; try done. apply not_elem_of_nil.
Qed.

(** ** Facts about the string methods *)

Lemma contains_char_cons (c a : ascii) (s : string) :
  PyStr.contains_char c (String a s) = Ascii.eqb c a || PyStr.contains_char c s.
Proof. reflexivity. Qed.

Lemma string_app_cons (x : ascii) (a b : string) :
  (String x a ++ b)%string = String x (a ++ b)%string.
Proof. reflexivity. Qed.

Lemma string_app_nil (b : string) : ("" ++ b)%string = b.
Proof. reflexivity. Qed.

Lemma string_app_assoc (a b c : string) : ((a ++ b) ++ c)%string = (a ++ b ++ c)%string.
Proof.
  induction a as [|x a IH]; [done|]. by rewrite !string_app_cons, IH.
Qed.

Ltac norm_app :=
  repeat first [rewrite string_app_assoc | rewrite string_app_cons | rewrite string_app_nil].

Lemma contains_char_app (c : ascii) (a b : string) :
  PyStr.contains_char c (a ++ b)%string
  = PyStr.contains_char c a || PyStr.contains_char c b.
Proof.
  induction a as [|x a IH]; [done|].
  change (String x a ++ b)%string with (String x (a ++ b)%string).
  rewrite !contains_char_cons, IH. by rewrite orb_assoc.
Qed.

Lemma rsplit1_head_last (c : ascii) (a b : string) :
  PyStr.contains_char c b = false →
  PyStr.rsplit1_head c (a ++ String c b)%string = a.
Proof.
  intros Hb. induction a as [|x a IH]; simpl.
  - rewrite Hb. by rewrite Ascii.eqb_refl.
  - rewrite contains_char_app, contains_char_cons, Ascii.eqb_refl, orb_true_r.
    simpl. by rewrite IH.
Qed.

Lemma last_component_plain (s : string) :
  PyStr.contains_char "/" s = false → PyStr.last_component s = s.
Proof.
  destruct s as [|a s]; [done|]. rewrite contains_char_cons.
  intros [Ha Hs]%orb_false_elim. simpl. rewrite Hs.
  rewrite Ascii.eqb_sym in Ha. by rewrite Ha.
Qed.

Lemma substring_prefix (a b : string) :
  String.substring 0 (String.length a) (a ++ b)%string = a.
Proof.
  induction a as [|x a IH]; simpl; [by destruct b|]. by rewrite IH.
Qed.

Lemma string_length_app (a b : string) :
  String.length (a ++ b)%string = String.length a + String.length b.
Proof. induction a as [|x a IH]; simpl; [done|]. by rewrite IH. Qed.

(** The base name of [base.txt] is [base], unless [base] is empty or
    made of dots only (then [splitext] sees no extension). *)
Lemma splitext_root_txt (base : string) :
  PyStr.contains_char "/" base = false →
  PyStr.all_dots base = false →
  PyStr.splitext_root (base ++ ".txt")%string = base.
Proof.
  intros Hslash Hdots. unfold PyStr.splitext_root.
  rewrite last_component_plain by (by rewrite contains_char_app, Hslash).
  rewrite contains_char_app. cbn [PyStr.contains_char list_ascii_of_string existsb].
  rewrite Ascii.eqb_refl, orb_true_r. cbn [orb].
  rewrite (rsplit1_head_last "." base "txt") by done.
  rewrite Hdots, Nat.sub_diag. apply substring_prefix.
Qed.

(** ** Naming of outputs, admission of inputs *)

Lemma get_files_to_process_admits (E : Env) (self : AdvancedDocumentRefiner) (f : string) :
  f ∈ get_files_to_process E self →
  f ∈ listdir E (input_dir self)
  ∧ PyStr.endswith ".txt" f = true
  ∧ PyStr.startswith "refined_" f = false
  ∧ f ∉ processed_files E self.
Proof.
  unfold get_files_to_process.
  destruct (path_exists E (input_dir self)); simpl; [|by intros ?%elem_of_nil].
  rewrite list_elem_of_In. intros [[Hin [He Hs]%andb_prop]%filter_In Hp]%filter_In.
  apply negb_true_iff in Hs. apply bool_decide_eq_true in Hp.
  by rewrite list_elem_of_In.
Qed.

(** C9. The output of a successfully processed file is named
    [refined_] + the short identifier of the backend used + [_] + the
    base name of the input ([os.path.splitext(filename)[0]]) + [_] + the
    timestamp + [.txt], and is written under that name in the output
    directory; the timestamp is the date, an underscore and the time of
    day; for an input [base.txt] the base name is [base] (when [base]
    has a character other than a dot).  Enumeration admits only names
    of the input directory that end in [.txt] and do not start with
    [refined_]. *)
Theorem output_naming_and_admission (E : Env) (self : AdvancedDocumentRefiner) :
  (∀ m f,
      success (fst (process_item E self m f)) = true →
      let timestamp :=
        (PyStr.zero_pad 4 (year (now E f)) ++ PyStr.zero_pad 2 (month (now E f))
         ++ PyStr.zero_pad 2 (day (now E f)) ++ "_"
         ++ PyStr.zero_pad 2 (hour (now E f)) ++ PyStr.zero_pad 2 (minute (now E f))
         ++ PyStr.zero_pad 2 (second (now E f)))%string in
      let out :=
        ("refined_" ++ short_name m ++ "_" ++ PyStr.splitext_root f ++ "_"
         ++ timestamp ++ ".txt")%string in
      output_file (fst (process_item E self m f)) = Some out
      ∧ model_used (fst (process_item E self m f)) = short_name m
      ∧ ∃ content,
          EvWrite f (PyStr.path_join (output_dir self) out) content
            ∈ snd (process_item E self m f)
          ∧ write_file_async E f (PyStr.path_join (output_dir self) out) content = Ok tt)
  ∧ (∀ base,
      PyStr.contains_char "/" base = false →
      PyStr.all_dots base = false →
      PyStr.splitext_root (base ++ ".txt")%string = base)
  ∧ (∀ f,
      f ∈ get_files_to_process E self →
      f ∈ listdir E (input_dir self)
      ∧ PyStr.endswith ".txt" f = true
      ∧ PyStr.startswith "refined_" f = false).
Proof.
  split_and!.
  - intros m f Hs timestamp out.
    destruct (process_item_cases E self m f)
      as [(e & _ & Hp)|[(c & e & _ & _ & Hp)|[(c & t & e & _ & _ & _ & Hp)
         |(c & t & _ & _ & Hw & Hp)]]]; rewrite Hp in Hs |- *; try done.
    simpl. split_and!; try done.
    exists t. split; [|exact Hw]. rewrite !elem_of_cons. auto 10.
  - apply splitext_root_txt.
  - intros f (? & ? & ? & _)%get_files_to_process_admits. done.
Qed.

Lemma output_naming_and_admission_witness :
  success (fst (process_item Demo.env Demo.refiner Demo.deepseek_r1 "a.txt")) = true
  ∧ output_file (fst (process_item Demo.env Demo.refiner Demo.deepseek_r1 "a.txt"))
    = Some "refined_deepseek_r1_a_20250102_030405.txt".
Proof.
  split; [reflexivity|].
  exact (proj1 (proj1 (output_naming_and_admission Demo.env Demo.refiner)
                  Demo.deepseek_r1 "a.txt" eq_refl)).
Defined.

(** ** Construction *)

Lemma init_cases (imp : Imports) (mode_arg : string) :
  let available := List.filter (model_available imp) (models_for_mode mode_arg) in
  (available = []
   ∧ init imp mode_arg = Raise "No AI models available - install required dependencies")
  ∨ (available ≠ []
     ∧ ∃ self, init imp mode_arg = Ok self
               ∧ models self = available
               ∧ mode self = mode_arg
               ∧ input_dir self = "Barba_Docs"
               ∧ output_dir self = "Barba_Docs_Refined"
               ∧ max_parallel self = 5
               ∧ semaphore self = 5
               ∧ current_model_index self = 0
               ∧ results self = []).
Proof.
  intros available. unfold init, setup_clients. simpl. fold available.
  destruct available as [|m ms]; [by left|right].
  split; [done|]. eexists. split; [reflexivity|]. by split_and!.
Qed.

(** A refiner that was constructed is ready for a run. *)
Lemma init_ready (imp : Imports) (mode_arg : string) (self : AdvancedDocumentRefiner) :
  init imp mode_arg = Ok self →
  current_model_index self < length (models self)
  ∧ 0 < semaphore self
  ∧ semaphore self = max_parallel self
  ∧ results self = [].
Proof.
  intros Hinit.
  destruct (init_cases imp mode_arg)
    as [[_ Hr]|[Hne (self1 & Hok & Hms & _ & _ & _ & Hmp & Hsem & Hidx & Hres)]];
    [congruence|].
  assert (self1 = self) as -> by congruence.
  rewrite Hidx, Hsem, Hmp, Hres, Hms. split_and!; try done; [|lia].
  destruct (List.filter _ _); [done|simpl; lia].
Qed.

Example init_all : init Demo.env "all" = Ok Demo.refiner.
Proof. reflexivity. Qed.

Example enumeration_ex : get_files_to_process Demo.env Demo.refiner = Demo.files.
Proof. vm_compute. reflexivity. Qed.

(** Three items, two backends, one permit: the backends are drawn in the
    order first, second, first. *)
Example serial_rotation_ex :
  let two := set_semaphore 1 (set_models (take 2 all_models) Demo.refiner) in
  model_used <$> results (self_of (run_loop Demo.env []
                                     (start two ["a.txt"; "e.txt"; "f.txt"] [])))
  = ["gemini_25_pro"; "deepseek_qwen3_8b"; "gemini_25_pro"]%string.
Proof. vm_compute. reflexivity. Qed.

(** C8. When no configured backend is left after [setup_clients] has
    dropped those whose client library is missing, the constructor
    raises RuntimeError; it returns no refiner, and [main] ends having
    done nothing: no directory is created or listed, no item is taken
    up.  This is the only way construction fails. *)
Theorem no_backend_is_fatal (E : Env) (geminionly openrouteronly : bool)
    (sched : list label) :
  let mode_arg :=
    if geminionly then "gemini" else if openrouteronly then "openrouter" else "all" in
  (List.filter (model_available E) (models_for_mode mode_arg) = [] →
   init E mode_arg = Raise "No AI models available - install required dependencies"
   ∧ (∀ self, init E mode_arg ≠ Ok self)
   ∧ main E geminionly openrouteronly sched
     = (Some "Unexpected error: No AI models available - install required dependencies",
        []))
  ∧ (List.filter (model_available E) (models_for_mode mode_arg) ≠ [] →
     ∃ self, init E mode_arg = Ok self ∧ models self ≠ []).
Proof.
  intros mode_arg. split.
  - intros Hempty.
    destruct (init_cases E mode_arg) as [[_ Hinit]|[Hne _]]; [|done].
    split_and!; [done|by rewrite Hinit|].
    unfold main. fold mode_arg. by rewrite Hinit.
  - intros Hne.
    destruct (init_cases E mode_arg) as [[Hempty _]|[_ (self & Hinit & Hms & _)]]; [done|].
    exists self. by rewrite Hms.
Qed.

Lemma no_backend_is_fatal_witness :
  List.filter (model_available Demo.env_without_gemini) (models_for_mode "gemini") = []
  ∧ main Demo.env_without_gemini true false Demo.schedule
    = (Some "Unexpected error: No AI models available - install required dependencies",
       []).
Proof.
  split; [reflexivity|].
  exact (proj2 (proj2 (proj1 (no_backend_is_fatal Demo.env_without_gemini true false
                                Demo.schedule) eq_refl))).
Defined.

(** ** The skip filter against the naming of outputs *)

(** C3 (the code departs from the specification). A first run over seven files
    succeeds on four of them and fails on three.  With its outputs
    still in the output directory, the names [get_files_to_process]
    recovers from them are not names of input files: the short
    identifiers and the timestamp contain underscores, so dropping two
    [_]-separated pieces and the last one leaves part of the identifier
    and the date in place.  The second run selects all seven files, not
    only the three that failed. *)
Theorem rerun_selects_processed_files_again :
  filename <$> List.filter success (results (self_of Demo.first_run))
  = ["a.txt"; "e.txt"; "f.txt"; "g.txt"]
  ∧ filename <$> List.filter (fun r => negb (success r)) (results (self_of Demo.first_run))
    = ["c.txt"; "b.txt"; "d.txt"]
  ∧ Demo.retained_outputs
    = ["refined_gemini_25_pro_a_20250102_030405.txt";
       "refined_deepseek_r1_e_20250102_030405.txt";
       "refined_deepseek_qwen3_8b_f_20250102_030405.txt";
       "refined_gemini_25_pro_g_20250102_030405.txt";
       "batch_refining_report_20250102_030405.txt"]
  ∧ omap original_of Demo.retained_outputs
    = ["25_pro_a_20250102.txt"; "r1_e_20250102.txt";
       "qwen3_8b_f_20250102.txt"; "25_pro_g_20250102.txt"]
  ∧ get_files_to_process Demo.env_second_run Demo.refiner
    = ["a.txt"; "b.txt"; "c.txt"; "d.txt"; "e.txt"; "f.txt"; "g.txt"].
Proof. vm_compute. repeat split. Qed.

(** *** Why: the recovered name, in general *)

Lemma split_nonempty (c : ascii) (s : string) : ∃ p ps, PyStr.split c s = p :: ps.
Proof.
  induction s as [|a s (p & ps & IH)]; simpl; [by eexists _, _|].
  destruct (Ascii.eqb a c); [by eexists _, _|]. rewrite IH. by eexists _, _.
Qed.

Lemma join_cons_char (sep : string) (a : ascii) (p : string) (ps : list string) :
  PyStr.join sep (String a p :: ps) = String a (PyStr.join sep (p :: ps)).
Proof. by destruct ps. Qed.

Lemma join_split (c : ascii) (s : string) :
  PyStr.join (String c "") (PyStr.split c s) = s.
Proof.
  induction s as [|a s IH]; [done|]. simpl.
  destruct (split_nonempty c s) as (p & ps & Hs). rewrite Hs in IH |- *.
  destruct (Ascii.eqb_spec a c) as [->|Hne].
  - change (PyStr.join (String c "") ("" :: p :: ps))
      with (String c (PyStr.join (String c "") (p :: ps))). by rewrite IH.
  - by rewrite join_cons_char, IH.
Qed.

Lemma join_tail_split (c : ascii) (s : string) :
  PyStr.join (String c "") (drop 1 (PyStr.split c s)) = PyStr.partition_tail c s.
Proof.
  induction s as [|a s IH]; [done|]. simpl.
  destruct (Ascii.eqb a c).
  - simpl. apply join_split.
  - destruct (split_nonempty c s) as (p & ps & Hs). rewrite Hs in IH |- *. exact IH.
Qed.

Lemma split_first_piece (c : ascii) (a b : string) :
  PyStr.contains_char c a = false →
  PyStr.split c (a ++ String c b)%string = a :: PyStr.split c b.
Proof.
  induction a as [|x a IH]; simpl.
  - intros _. by rewrite Ascii.eqb_refl.
  - rewrite contains_char_cons. intros [Hx Ha]%orb_false_elim.
    rewrite Ascii.eqb_sym in Hx. rewrite Hx, (IH Ha). done.
Qed.

Lemma split_length_with_sep (c : ascii) (s : string) :
  PyStr.contains_char c s = true → 2 ≤ length (PyStr.split c s).
Proof.
  induction s as [|a s IH]; [done|]. rewrite contains_char_cons. simpl.
  destruct (split_nonempty c s) as (p & ps & Hs).
  destruct (Ascii.eqb_spec a c) as [->|Hne].
  - intros _. rewrite Hs. simpl. lia.
  - rewrite Ascii.eqb_sym. destruct (Ascii.eqb_spec a c); [done|]. simpl.
    intros Hc. specialize (IH Hc). rewrite Hs in IH |- *. exact IH.
Qed.

Lemma partition_tail_app (c : ascii) (a b : string) :
  PyStr.contains_char c a = true →
  PyStr.partition_tail c (a ++ b)%string = (PyStr.partition_tail c a ++ b)%string.
Proof.
  induction a as [|x a IH]; [done|]. rewrite contains_char_cons. simpl.
  rewrite Ascii.eqb_sym. destruct (Ascii.eqb x c); [done|]. exact IH.
Qed.

Lemma partition_tail_length (c : ascii) (a b : string) :
  String.length b ≤ String.length (PyStr.partition_tail c (a ++ String c b)%string).
Proof.
  induction a as [|x a IH]; simpl.
  - by rewrite Ascii.eqb_refl.
  - destruct (Ascii.eqb x c); [|exact IH].
    rewrite string_length_app. simpl. lia.
Qed.

Lemma partition_tail_lacks (c d : ascii) (s : string) :
  PyStr.contains_char d s = false → PyStr.contains_char d (PyStr.partition_tail c s) = false.
Proof.
  induction s as [|x s IH]; [done|]. rewrite contains_char_cons.
  intros [Hx Hs]%orb_false_elim. simpl. destruct (Ascii.eqb x c); auto.
Qed.

Lemma replace_txt_suffix (s : string) :
  PyStr.contains_char "." s = false →
  PyStr.replace ".txt" "" (s ++ ".txt")%string = s.
Proof.
  unfold PyStr.replace. induction s as [|x s IH]; [done|].
  rewrite contains_char_cons. intros [Hx Hs]%orb_false_elim.
  change (String x s ++ ".txt")%string with (String x (s ++ ".txt")%string).
  cbn [PyStr.replace_from PyStr.startswith]. rewrite Hx. by rewrite (IH Hs).
Qed.

Lemma digit_is_not (c : ascii) (d : nat) :
  (nat_of_ascii c < 48 ∨ 57 < nat_of_ascii c) → Ascii.eqb c (PyStr.digit d) = false.
Proof.
  intros Hc. apply Ascii.eqb_neq. intros ->. unfold PyStr.digit in Hc.
  pose proof (Nat.mod_upper_bound d 10 ltac:(lia)) as Hd.
  rewrite nat_ascii_embedding in Hc by lia. lia.
Qed.

Lemma zero_pad_lacks (c : ascii) (w n : nat) :
  (nat_of_ascii c < 48 ∨ 57 < nat_of_ascii c) →
  PyStr.contains_char c (PyStr.zero_pad w n) = false.
Proof.
  intros Hc. revert n. induction w as [|w IH]; intros n; [done|]. simpl.
  rewrite contains_char_app, IH, contains_char_cons. simpl.
  by rewrite digit_is_not.
Qed.

Lemma zero_pad_length (w n : nat) : String.length (PyStr.zero_pad w n) = w.
Proof.
  revert n. induction w as [|w IH]; intros n; [done|]. simpl.
  rewrite string_length_app, IH. simpl. lia.
Qed.

(** The timestamp is eight digits, an underscore and six digits. *)
Lemma strftime_stamp_shape (dt : DateTime) :
  ∃ d8 d6,
    strftime_stamp dt = (d8 ++ String "_" d6)%string
    ∧ String.length d8 = 8
    ∧ PyStr.contains_char "." d8 = false
    ∧ PyStr.contains_char "_" d6 = false ∧ PyStr.contains_char "." d6 = false.
Proof.
  exists (PyStr.zero_pad 4 (year dt) ++ PyStr.zero_pad 2 (month dt)
          ++ PyStr.zero_pad 2 (day dt))%string,
         (PyStr.zero_pad 2 (hour dt) ++ PyStr.zero_pad 2 (minute dt)
          ++ PyStr.zero_pad 2 (second dt))%string.
  split_and!.
  - unfold strftime_stamp. by norm_app.
  - rewrite !string_length_app, !zero_pad_length. done.
  - rewrite !contains_char_app, !zero_pad_lacks by (vm_compute; lia). done.
  - rewrite !contains_char_app, !zero_pad_lacks by (vm_compute; lia). done.
  - rewrite !contains_char_app, !zero_pad_lacks by (vm_compute; lia). done.
Qed.

(** What [get_files_to_process] recovers from the output of an item: not
    the item's name, but a longer one, whatever the backend and the
    time.  (Stated for names [base.txt] without further dots, and short
    identifiers without dots, as all configured ones are.) *)
Lemma own_output_is_not_recognised (E : Env) (m : ModelConfig) (base : string) :
  PyStr.contains_char "." (short_name m) = false →
  PyStr.contains_char "." base = false →
  PyStr.contains_char "/" base = false →
  base ≠ ""%string →
  ∃ other,
    original_of (output_filename_of E m (base ++ ".txt")%string) = Some other
    ∧ String.length (base ++ ".txt")%string < String.length other
    ∧ other ≠ (base ++ ".txt")%string.
Proof.
  intros Hshort Hbase Hslash Hne.
  assert (Hdots : PyStr.all_dots base = false).
  { destruct base as [|x base]; [done|]. rewrite contains_char_cons in Hbase.
    apply orb_false_elim in Hbase as [Hx _]. simpl. rewrite Ascii.eqb_sym in Hx.
    by rewrite Hx. }
  destruct (strftime_stamp_shape (now E (base ++ ".txt")%string))
    as (d8 & d6 & Hts & Hl8 & Hd8 & Hu6 & Hd6).
  unfold output_filename_of. rewrite (splitext_root_txt base Hslash Hdots), Hts.
  set (sb := (short_name m ++ String "_" base)%string).
  assert (Hout : ("refined_" ++ short_name m ++ "_" ++ base ++ "_"
                  ++ (d8 ++ String "_" d6) ++ ".txt")%string
                 = ("refined" ++ String "_"
                      (sb ++ String "_" (d8 ++ String "_" (d6 ++ ".txt"))))%string).
  { unfold sb. by norm_app. }
  rewrite Hout. clear Hout.
  set (rest := (sb ++ String "_" (d8 ++ String "_" (d6 ++ ".txt")))%string).
  assert (Hsb : PyStr.contains_char "_" sb = true).
  { unfold sb. rewrite contains_char_app, contains_char_cons. simpl. apply orb_true_r. }
  assert (Hrest : PyStr.contains_char "_" rest = true).
  { unfold rest. by rewrite contains_char_app, Hsb. }
  set (Y := PyStr.partition_tail "_" sb).
  assert (HY : PyStr.contains_char "." Y = false).
  { apply partition_tail_lacks. unfold sb.
    rewrite contains_char_app, Hshort, contains_char_cons, Hbase. done. }
  exists (Y ++ String "_" d8 ++ ".txt")%string.
  split_and!.
  - unfold original_of.
    change (PyStr.startswith "refined_" ("refined" ++ String "_" rest)%string) with true.
    cbn [PyStr.startswith].
    rewrite (split_first_piece "_" "refined" rest) by done.
    pose proof (split_length_with_sep "_" rest Hrest) as Hlen.
    destruct (3 <=? length ("refined" :: PyStr.split "_" rest)) eqn:H3.
    2: { apply Nat.leb_gt in H3. simpl in H3. lia. }
    change (drop 2 ("refined"%string :: PyStr.split "_" rest))
      with (drop 1 (PyStr.split "_" rest)).
    rewrite (join_tail_split "_" rest). unfold rest.
    rewrite (partition_tail_app "_" sb _ Hsb). fold Y.
    replace (Y ++ String "_" (d8 ++ String "_" (d6 ++ ".txt")))%string
      with ((Y ++ String "_" (d8 ++ String "_" d6)) ++ ".txt")%string
      by (by norm_app).
    rewrite replace_txt_suffix.
    2: { rewrite contains_char_app, HY, contains_char_cons, contains_char_app, Hd8,
           contains_char_cons, Hd6. done. }
    replace (Y ++ String "_" (d8 ++ String "_" d6))%string
      with ((Y ++ String "_" d8) ++ String "_" d6)%string
      by (by norm_app).
    rewrite (rsplit1_head_last "_" _ d6 Hu6). by norm_app.
  - pose proof (partition_tail_length "_" (short_name m) base) as Hle.
    fold sb in Hle. fold Y in Hle.
    rewrite !string_length_app. cbn [String.length]. rewrite Hl8. lia.
  - intros Heq. apply (f_equal String.length) in Heq.
    pose proof (partition_tail_length "_" (short_name m) base) as Hle.
    fold sb in Hle. fold Y in Hle.
    rewrite !string_length_app in Heq. cbn [String.length] in Heq.
    rewrite Hl8 in Heq. lia.
Qed.

(** ** The events of an item in a run are those of one call *)

Lemma events_of_app (f : string) (a b : list event) :
  events_of f (a ++ b) = events_of f a ++ events_of f b.
Proof. apply List.filter_app. Qed.

Lemma events_of_own (f : string) (evs : list event) :
  Forall (fun ev => item_of ev = Some f) evs → events_of f evs = evs.
Proof.
  induction 1 as [|ev evs Hev _ IH]; [done|]. unfold events_of in *. simpl.
  rewrite bool_decide_eq_true_2 by done. by rewrite IH.
Qed.

Lemma events_of_foreign (f g : string) (evs : list event) :
  f ≠ g → Forall (fun ev => item_of ev = Some g) evs → events_of f evs = [].
Proof.
  intros Hne. induction 1 as [|ev evs Hev _ IH]; [done|]. unfold events_of in *. simpl.
  rewrite bool_decide_eq_false_2 by congruence. exact IH.
Qed.

Lemma events_of_none (f : string) (evs : list event) :
  Forall (fun ev => item_of ev = None) evs → events_of f evs = [].
Proof.
  induction 1 as [|ev evs Hev _ IH]; [done|]. unfold events_of in *. simpl.
  rewrite bool_decide_eq_false_2 by congruence. exact IH.
Qed.

Section Traces.

Variable E : Env.

Lemma resume_event_item (self : AdvancedDocumentRefiner) (f : string) (p : pc) :
  match resume E self f p with
  | Some (Suspends _ ev) | Some (Returns _ ev) => item_of ev = Some f
  | None => True
  end.
Proof.
  destruct p; simpl; try done.
  - by destruct (read_file_async E _ _).
  - by destruct (call_backend E _ _ _).
  - by destruct (write_file_async E _ _ _).
Qed.

Lemma resume_trace_suspends (self : AdvancedDocumentRefiner) (f : string) (p p' : pc)
    ev evs :
  pc_trace E self f p evs →
  resume E self f p = Some (Suspends p' ev) →
  pc_trace E self f p' (evs ++ [ev]).
Proof.
  destruct p; simpl; try done.
  - intros ->. destruct (read_file_async E _ _); intros [= <- <-]. done.
  - intros ->. destruct (call_backend E _ _ _); intros [= <- <-]. done.
  - intros ->. destruct (write_file_async E _ _ _); intros [= <- <-]. done.
Qed.

Lemma resume_trace_returns (self : AdvancedDocumentRefiner) (f : string) (p : pc)
    r ev evs :
  pc_expect E self f p →
  pc_trace E self f p evs →
  resume E self f p = Some (Returns r ev) →
  pc_trace E self f (Returned r) (evs ++ [ev; EvRelease f; EvReturn f r]).
Proof.
  destruct p; simpl; try done.
  - intros Hm ->. destruct (read_file_async E _ _) eqn:Hrd; intros [= <- <-].
    exists m. unfold call_events, process_item. rewrite Hrd. done.
  - intros [Hm Hrd] ->. destruct (call_backend E _ _ _) eqn:Hc; intros [= <- <-].
    exists m. unfold call_events, process_item. rewrite Hrd, Hc. done.
  - intros (Hm & content & Hrd & Hc) ->.
    destruct (write_file_async E _ _ _) as [[]|] eqn:Hw; intros [= <- <-].
    exists m. unfold call_events, process_item. rewrite Hrd, Hc, Hw. done.
  - intros (Hm & -> & content & Hrd & Hc & Hw) -> [= <- <-].
    exists m. unfold call_events, process_item. rewrite Hrd, Hc, Hw. done.
Qed.

Lemma trace_update (self0 : AdvancedDocumentRefiner) (l1 l2 : list (string * pc))
    (f : string) (p p' : pc) (lg new : list event) :
  NoDup (fst <$> (l1 ++ (f, p) :: l2)) →
  Forall (fun ev => item_of ev = Some f) new →
  Forall (fun t => pc_trace E self0 (fst t) (snd t) (events_of (fst t) lg))
         (l1 ++ (f, p) :: l2) →
  (pc_trace E self0 f p (events_of f lg) → pc_trace E self0 f p' (events_of f lg ++ new)) →
  Forall (fun t => pc_trace E self0 (fst t) (snd t) (events_of (fst t) (lg ++ new)))
         (l1 ++ (f, p') :: l2).
Proof.
  intros Hnd Hnew Hall Hstep.
  rewrite fmap_app, fmap_cons in Hnd. simpl in Hnd.
  apply NoDup_app in Hnd as (_ & Hl1 & [Hl2 _]%NoDup_cons).
  apply Forall_app in Hall as [H1 [Hp H2]%Forall_cons]. simpl in Hp.
  assert (Hother : ∀ l : list (string * pc),
    (∀ t, t ∈ l → fst t ≠ f) →
    Forall (fun t => pc_trace E self0 (fst t) (snd t) (events_of (fst t) lg)) l →
    Forall (fun t => pc_trace E self0 (fst t) (snd t) (events_of (fst t) (lg ++ new))) l).
  { intros l Hl Hfa. apply Forall_forall. intros t Ht.
    rewrite events_of_app, (events_of_foreign (fst t) f new), app_nil_r; [|by apply Hl|done].
    by apply (proj1 (Forall_forall _ _) Hfa). }
  apply Forall_app. split; [|apply Forall_cons; split].
  - apply Hother; [|done]. intros t Ht Heq. apply (Hl1 (fst t)).
    + apply list_elem_of_fmap. by exists t.
    + apply elem_of_cons. by left.
  - simpl. rewrite events_of_app, (events_of_own f new Hnew). by apply Hstep.
  - apply Hother; [|done]. intros t Ht Heq. apply Hl2.
    apply list_elem_of_fmap. by exists t.
Qed.

Lemma task_step_trace (self0 : AdvancedDocumentRefiner) files (st st' : RunState) :
  run_inv E self0 files st →
  NoDup files →
  Forall (fun t => pc_trace E self0 (fst t) (snd t) (events_of (fst t) (log st))) (tasks st) →
  task_step E st st' →
  Forall (fun t => pc_trace E self0 (fst t) (snd t) (events_of (fst t) (log st')))
         (tasks st').
Proof.
  intros Hinv Hnd Htr.
  pose proof (inv_config _ _ _ _ Hinv) as Hcfg.
  pose proof (inv_expect _ _ _ _ Hinv) as Hexp.
  rewrite <- (inv_names _ _ _ _ Hinv) in Hnd.
  intros [l1 l2 f free m self' Hab Ht Hsem Hg ->
         |l1 l2 f free e Hab Ht Hsem Hg ->
         |l1 l2 f p p' ev Hab Ht Hr ->
         |l1 l2 f p r ev Hab Ht Hr ->];
    rewrite Ht in Hnd, Htr, Hexp; simpl.
  - eapply trace_update; [done| |done|].
    + by repeat constructor.
    + simpl. by intros ->.
  - eapply trace_update; [done| |done|].
    + by repeat constructor.
    + simpl. by intros ->.
  - rewrite (resume_same_config E _ self0) in Hr by done.
    pose proof (resume_event_item self0 f p) as Hev. rewrite Hr in Hev.
    eapply trace_update; [done| |done|].
    + by repeat constructor.
    + intros Hp. by eapply resume_trace_suspends.
  - rewrite (resume_same_config E _ self0) in Hr by done.
    pose proof (resume_event_item self0 f p) as Hev. rewrite Hr in Hev.
    apply Forall_app in Hexp as [_ [Hp _]%Forall_cons]. simpl in Hp.
    eapply trace_update; [done| |done|].
    + by repeat constructor.
    + intros Hp'. by eapply resume_trace_returns.
Qed.

Lemma reachable_trace (self0 : AdvancedDocumentRefiner) files (st0 st : RunState) :
  NoDup files →
  run_inv E self0 files st0 →
  Forall (fun t => pc_trace E self0 (fst t) (snd t) (events_of (fst t) (log st0)))
         (tasks st0) →
  reachable E st0 st →
  Forall (fun t => pc_trace E self0 (fst t) (snd t) (events_of (fst t) (log st))) (tasks st).
Proof.
  intros Hnd Hinv Htr Hreach. induction Hreach as [|x y z Hxy _ IH]; [done|].
  apply IH; [by eapply step_inv|].
  destruct Hxy as [[i|] Hl]; simpl in Hl.
  - eapply task_step_trace; [done|done|done|]. by eapply step_task_cases.
  - apply step_collect_cases in Hl as (_ & o & rest & _ & Ht & _ & Hlog & _).
    by rewrite Ht, Hlog.
Qed.

(** In a run over distinct names, the events of an item whose task has
    returned are the events of one uninterrupted call for that item. *)
Lemma returned_item_events (self : AdvancedDocumentRefiner) files evs (st : RunState)
    (i : nat) (f : string) (r : ProcessingResult) :
  current_model_index self < length (models self) →
  NoDup files →
  Forall (fun ev => item_of ev = None) evs →
  reachable E (start self files evs) st →
  tasks st !! i = Some (f, Returned r) →
  ∃ m, m ∈ models self
       ∧ r = fst (process_item E self m f)
       ∧ events_of f (log st) = call_events E self m f.
Proof.
  intros Hidx Hnd Hevs Hreach Hi.
  assert (Htr : Forall (fun t => pc_trace E self (fst t) (snd t)
                                   (events_of (fst t) (log st))) (tasks st)).
  { eapply reachable_trace; [done|by apply run_inv_start| |done].
    simpl. apply Forall_fmap, Forall_forall. intros g _. simpl.
    by apply events_of_none. }
  exact (proj1 (Forall_lookup _ _) Htr i _ Hi).
Qed.

End Traces.

Lemma elem_of_events_of (f : string) (ev : event) (lg : list event) :
  item_of ev = Some f → (ev ∈ events_of f lg ↔ ev ∈ lg).
Proof.
  intros Hev. unfold events_of. rewrite !list_elem_of_In, filter_In.
  rewrite bool_decide_eq_true. tauto.
Qed.

Lemma call_events_shape (E : Env) (self : AdvancedDocumentRefiner) (m : ModelConfig)
    (f : string) :
  let r := fst (process_item E self m f) in
  ∃ body,
    call_events E self m f
    = [EvAcquire f; EvNextModel f m] ++ body ++ [EvRelease f; EvReturn f r]
    ∧ (EvAcquire f ∉ body) ∧ (EvRelease f ∉ body)
    ∧ model_used r = short_name m
    ∧ (success r = true →
       ∃ pre out content,
         body = pre ++ [EvWrite f (PyStr.path_join (output_dir self) out) content;
                        EvSleep f (rate_limit_delay m)]
         ∧ output_file r = Some out
         ∧ write_file_async E f (PyStr.path_join (output_dir self) out) content = Ok tt
         ∧ ∀ i d, EvSleep i d ∉ pre)
    ∧ (success r = false → ∀ i d, EvSleep i d ∉ call_events E self m f).
Proof.
  intros r. destruct (process_item_events E self m f) as (Ha & Hr & Hmu & Hok & Hfail).
  exists (snd (process_item E self m f)). split_and!; try done.
  intros Hs i d. unfold call_events. rewrite !elem_of_app, !elem_of_cons, elem_of_nil.
  specialize (Hfail Hs i d). intros [[?|[?|?]]|[?|[?|[?|?]]]]; done.
Qed.

(** C7. A call of [process_single_file] takes the permit first and
    gives it back last, just before the result is returned, whether the
    item succeeded or failed; the number of free permits afterwards is
    what it was before.  Between the two, the rate-limiting sleep occurs
    only when the item succeeds: it is then the last thing done,
    directly after the write of the output that succeeded, and lasts the
    [rate_limit_delay] of the backend used; when the item fails there is
    no sleep.  In a run where calls interleave, the events of an item
    whose task has returned are those of one such call, and an item
    whose task is between taking and returning the permit has not
    released it. *)
Theorem sleep_only_after_success (E : Env) (self : AdvancedDocumentRefiner) :
  (∀ f r self' evs,
      process_single_file E self f = Some (Ok (r, self'), evs) →
      semaphore self' = semaphore self
      ∧ ∃ m, m ∈ models self ∧ r = fst (process_item E self m f)
             ∧ evs = call_events E self m f)
  ∧ (∀ m f,
      let r := fst (process_item E self m f) in
      ∃ body,
        call_events E self m f
        = [EvAcquire f; EvNextModel f m] ++ body ++ [EvRelease f; EvReturn f r]
        ∧ (EvAcquire f ∉ body) ∧ (EvRelease f ∉ body)
        ∧ model_used r = short_name m
        ∧ (success r = true →
           ∃ pre out content,
             body = pre ++ [EvWrite f (PyStr.path_join (output_dir self) out) content;
                            EvSleep f (rate_limit_delay m)]
             ∧ output_file r = Some out
             ∧ write_file_async E f (PyStr.path_join (output_dir self) out) content = Ok tt
             ∧ ∀ i d, EvSleep i d ∉ pre)
        ∧ (success r = false → ∀ i d, EvSleep i d ∉ call_events E self m f))
  ∧ (∀ files evs st i f p,
      current_model_index self < length (models self) →
      NoDup files →
      Forall (fun ev => item_of ev = None) evs →
      reachable E (start self files evs) st →
      tasks st !! i = Some (f, p) →
      match p with
      | Returned r =>
          ∃ m, m ∈ models self ∧ r = fst (process_item E self m f)
               ∧ events_of f (log st) = call_events E self m f
      | _ =>
          holds_permit p = true →
          EvAcquire f ∈ log st ∧ (EvRelease f ∉ log st) ∧ ∀ d, EvSleep f d ∉ log st
      end).
Proof.
  split_and!.
  - intros f r self' evs (m & Hm & -> & -> & Hsem)%process_single_file_inv.
    split; [done|]. by exists m.
  - intros m f. apply call_events_shape.
  - intros files evs st i f p Hidx Hnd Hevs Hreach Hi.
    assert (Htr : Forall (fun t => pc_trace E self (fst t) (snd t)
                                     (events_of (fst t) (log st))) (tasks st)).
    { eapply reachable_trace; [done|by apply run_inv_start| |done].
      simpl. apply Forall_fmap, Forall_forall. intros g _. simpl.
      by apply events_of_none. }
    pose proof (proj1 (Forall_lookup _ _) Htr i _ Hi) as Hp. simpl in Hp.
    destruct p; try done; intros _;
      rewrite <- (elem_of_events_of f (EvAcquire f) (log st) eq_refl);
      rewrite <- (elem_of_events_of f (EvRelease f) (log st) eq_refl);
      (split_and!; [| |intros d; rewrite <- (elem_of_events_of f (EvSleep f d) (log st) eq_refl)]);
      rewrite Hp, ?not_elem_of_cons, ?elem_of_cons; split_and?; auto using not_elem_of_nil.
Qed.

Lemma sleep_only_after_success_witness :
  ∃ r self' evs,
    process_single_file Demo.env Demo.refiner "b.txt" = Some (Ok (r, self'), evs)
    ∧ success r = false
    ∧ EvSleep "b.txt" 8 ∉ evs.
Proof.
  destruct (process_single_file_returns Demo.env Demo.refiner "b.txt")
    as (m & Hm & Hp); [simpl; lia|simpl; lia|].
  eexists _, _, _. split; [exact Hp|].
  assert (Hs : success (fst (process_item Demo.env Demo.refiner m "b.txt")) = false).
  { vm_compute in Hm. injection Hm as <-. reflexivity. }
  split; [exact Hs|].
  destruct (sleep_only_after_success Demo.env Demo.refiner) as (_ & Hshape & _).
  destruct (Hshape m "b.txt") as (body & _ & _ & _ & _ & _ & Hfail).
  exact (Hfail Hs "b.txt" 8%Q).
Defined.

(** ** Rotation in a run *)

Lemma resume_event_not_drawn (E : Env) (self : AdvancedDocumentRefiner) (f : string)
    (p : pc) :
  match resume E self f p with
  | Some (Suspends _ ev) | Some (Returns _ ev) => drawn [ev] = []
  | None => True
  end.
Proof.
  destruct p; simpl; try done.
  - by destruct (read_file_async E _ _).
  - by destruct (call_backend E _ _ _).
  - by destruct (write_file_async E _ _ _).
Qed.

Lemma drawn_app (a b : list event) : drawn (a ++ b) = drawn a ++ drawn b.
Proof. apply omap_app. Qed.

(** The backends drawn in a run, in the order of the draws, are the
    configured ones in rotation, whichever tasks drew them. *)
Lemma reachable_rotation (E : Env) (self : AdvancedDocumentRefiner) files evs
    (st : RunState) :
  current_model_index self < length (models self) →
  drawn evs = [] →
  reachable E (start self files evs) st →
  models (self_of st) = models self
  ∧ (∀ k, k < length (drawn (log st)) →
       drawn (log st) !! k
       = models self !! ((current_model_index self + k) mod length (models self)))
  ∧ current_model_index (self_of st)
    = (current_model_index self + length (drawn (log st))) mod length (models self).
Proof.
  intros Hidx Hevs Hreach. unfold reachable in Hreach.
  pattern st. revert st Hreach. apply rtc_ind_r; [|intros y z Hxy Hyz IH].
  - simpl. rewrite Hevs. simpl. split_and!; [done|intros k Hk; lia|].
    by rewrite Nat.add_0_r, Nat.mod_small.
  - destruct IH as (Hms & Hnth & Hcur).
    destruct Hyz as [[i|] Hl]; simpl in Hl.
    + apply step_task_cases in Hl
        as [l1 l2 f free m self' Hab Ht Hsem Hg ->
           |l1 l2 f free e Hab Ht Hsem Hg ->
           |l1 l2 f p p' ev Hab Ht Hr ->
           |l1 l2 f p r ev Hab Ht Hr ->]; simpl.
      * apply get_next_model_Ok in Hg as [Hm ->]. simpl in Hm |- *.
        rewrite drawn_app. simpl. rewrite length_app. simpl.
        split_and!; [done| |].
        -- intros k Hk. destruct (decide (k < length (drawn (log y)))) as [Hlt|Hge].
           ++ rewrite lookup_app_l by done. by apply Hnth.
           ++ assert (k = length (drawn (log y))) as -> by lia.
              rewrite lookup_app_r by lia. rewrite Nat.sub_diag. simpl.
              by rewrite <- Hcur, <- Hms.
        -- rewrite Hcur, Hms, Nat.Div0.add_mod_idemp_l. f_equal. lia.
      * rewrite drawn_app. simpl. rewrite app_nil_r. done.
      * pose proof (resume_event_not_drawn E (self_of y) f p) as Hev.
        rewrite Hr in Hev. rewrite drawn_app, Hev, app_nil_r. done.
      * pose proof (resume_event_not_drawn E (self_of y) f p) as Hev.
        rewrite Hr in Hev.
        change [ev; EvRelease f; EvReturn f r] with ([ev] ++ [EvRelease f; EvReturn f r]).
        rewrite !drawn_app, Hev. simpl. rewrite app_nil_r. done.
    + apply step_collect_cases in Hl as (_ & o & rest & _ & _ & _ & Hlog & Ho).
      rewrite Hlog. destruct o; destruct Ho as [-> _]; done.
Qed.

(** C2. On a non-empty backend list, starting from index zero, the call
    number [N] (counting from zero) of [get_next_model] returns the
    backend at position [N mod len(models)]: any number [n] of calls
    succeeds, the backends they return are those positions in order,
    the index afterwards is [n mod len(models)], and the next call
    returns position [n mod len(models)] and moves the index to
    [(n + 1) mod len(models)], wrapping to zero.  The operation takes no
    work item; and in a run, the backends drawn, in the order of the
    draws, are those positions too, whichever items' tasks drew them. *)
Theorem get_next_model_round_robin (self : AdvancedDocumentRefiner) (n : nat) :
  models self ≠ [] →
  current_model_index self = 0 →
  (∃ ms self' m self'',
      rotation n self = Ok (ms, self')
      ∧ length ms = n
      ∧ (∀ N, N < n → ms !! N = models self !! (N mod length (models self)))
      ∧ current_model_index self' = n mod length (models self)
      ∧ models self' = models self
      ∧ get_next_model self' = Ok (m, self'')
      ∧ models self !! (n mod length (models self)) = Some m
      ∧ current_model_index self'' = (n + 1) mod length (models self))
  ∧ (∀ E files evs st,
      drawn evs = [] →
      reachable E (start self files evs) st →
      (∀ N, N < length (drawn (log st)) →
         drawn (log st) !! N = models self !! (N mod length (models self)))
      ∧ current_model_index (self_of st)
        = length (drawn (log st)) mod length (models self)).
Proof.
  intros Hne H0.
  assert (Hlt : current_model_index self < length (models self)).
  { rewrite H0. destruct (models self); [done|simpl; lia]. }
  split.
  - destruct (rotation_from n self Hlt) as (ms & self' & Hrot & Hl & Hnth & Hself').
    rewrite H0 in Hnth, Hself'. simpl in Hnth, Hself'.
    assert (Hidx : current_model_index self' = n mod length (models self))
      by (by rewrite Hself').
    assert (Hms : models self' = models self) by (by rewrite Hself').
    destruct (get_next_model_in_range self') as (m & Hm & Hcall).
    { rewrite Hidx, Hms. apply Nat.mod_upper_bound. lia. }
    exists ms, self', m,
      (set_current_model_index
         ((current_model_index self' + 1) mod length (models self')) self').
    split_and!; [done|done|done|done|done|exact Hcall| |].
    + by rewrite <- Hidx, <- Hms.
    + simpl. rewrite Hidx, Hms. by rewrite Nat.Div0.add_mod_idemp_l.
  - intros E files evs st Hevs Hreach.
    destruct (reachable_rotation E self files evs st Hlt Hevs Hreach) as (_ & Hnth & Hcur).
    rewrite H0 in Hnth, Hcur. simpl in Hnth, Hcur. done.
Qed.

Lemma get_next_model_round_robin_witness :
  models Demo.refiner ≠ []
  ∧ current_model_index Demo.refiner = 0
  ∧ ∃ ms self',
      rotation 7 Demo.refiner = Ok (ms, self')
      ∧ ms !! 6 = models Demo.refiner !! (6 mod length (models Demo.refiner))
      ∧ current_model_index self' = 7 mod length (models Demo.refiner).
Proof.
  assert (H1 : models Demo.refiner ≠ []) by discriminate.
  split_and!; [exact H1|reflexivity|].
  destruct (proj1 (get_next_model_round_robin Demo.refiner 7 H1 eq_refl))
    as (ms & self' & m & self'' & Hrot & _ & Hnth & Hidx & _).
  exists ms, self'. split_and!; [exact Hrot| |exact Hidx].
  apply Hnth. lia.
Defined.

(** * More about the program *)

(** ** The report: counts, rates, per-backend statistics *)

Lemma Qnat_nonneg (n : nat) : (0 <= Qnat n)%Q.
Proof. unfold Qnat. change 0%Q with (inject_Z 0). rewrite <- Zle_Qle. lia. Qed.

Lemma Qnat_pos (n : nat) : 0 < n → (0 < Qnat n)%Q.
Proof. intros Hn. unfold Qnat. change 0%Q with (inject_Z 0). rewrite <- Zlt_Qlt. lia. Qed.

Lemma Qnat_le (a b : nat) : a ≤ b → (Qnat a <= Qnat b)%Q.
Proof. intros Hab. unfold Qnat. rewrite <- Zle_Qle. lia. Qed.

Lemma percentage_bounds (a n : nat) :
  a ≤ n → 0 < n → (0 <= Qnat a / Qnat n * 100)%Q ∧ (Qnat a / Qnat n * 100 <= 100)%Q.
Proof.
  intros Han Hn. pose proof (Qnat_pos n Hn) as Hpos. split.
  - apply Qmult_le_0_compat; [|done]. unfold Qdiv.
    apply Qmult_le_0_compat; [apply Qnat_nonneg|].
    apply Qinv_le_0_compat, Qnat_nonneg.
  - assert (Hone : (Qnat a / Qnat n <= 1)%Q).
    { apply Qle_shift_div_r; [done|]. rewrite Qmult_1_l. by apply Qnat_le. }
    apply (Qmult_le_compat_r _ _ 100) in Hone; [|done].
    by rewrite Qmult_1_l in Hone.
Qed.





(** *** Per-backend statistics *)

Lemma model_stats_of_snoc (rs : list ProcessingResult) (r : ProcessingResult) :
  model_stats_of (rs ++ [r]) = count_result (model_used r) (success r) (model_stats_of rs).
Proof. unfold model_stats_of. by rewrite fold_left_app. Qed.

Lemma stats_get_count_result (k k' : string) (ok : bool)
    (stats : list (string * ModelStat)) :
  stats_get k (count_result k' ok stats)
  = if String.eqb k' k
    then Some match stats_get k stats with
              | Some v => {| total := total v + 1;
                             successful := if ok then successful v + 1 else successful v;
                             failed := if ok then failed v else failed v + 1 |}
              | None => {| total := 1;
                           successful := if ok then 1 else 0;
                           failed := if ok then 0 else 1 |}
              end
    else stats_get k stats.
Proof.
  induction stats as [|[k0 v] rest IH]; simpl.
  - rewrite String.eqb_sym. by destruct (String.eqb k' k).
  - destruct (String.eqb_spec k0 k') as [->|Hne]; simpl.
    + by destruct (String.eqb k' k).
    + destruct (String.eqb_spec k0 k) as [->|Hne'].
      * destruct (String.eqb_spec k' k) as [->|_]; done.
      * exact IH.
Qed.

(** X2. The statistics [generate_report] keeps per backend are the
    counts of the results: looking up a short identifier gives nothing
    when no result used it, and otherwise the number of results that
    used it, how many of those succeeded and how many failed; the
    totals over all backends add up to the number of results. *)
Theorem model_stats_count (rs : list ProcessingResult) :
  (∀ k,
      let mine := List.filter (fun r => String.eqb (model_used r) k) rs in
      stats_get k (model_stats_of rs)
      = match mine with
        | [] => None
        | _ :: _ =>
            Some {| total := length mine;
                    successful := length (List.filter success mine);
                    failed := length (List.filter (fun r => negb (success r)) mine) |}
        end)
  ∧ sum_list_with (fun kv => total (snd kv)) (model_stats_of rs) = length rs.
Proof.
  split.
  - intros k. induction rs as [|r rs IH] using rev_ind; [done|].
    rewrite model_stats_of_snoc, stats_get_count_result. simpl in IH.
    rewrite List.filter_app. simpl.
    destruct (String.eqb (model_used r) k) eqn:Hk.
    + rewrite IH. destruct (List.filter _ rs) as [|r1 mine] eqn:Hm; simpl.
      * by destruct (success r).
      * rewrite !List.filter_app, !length_app. simpl.
        destruct (success r1), (success r); simpl; rewrite ?length_app; simpl;
          rewrite ?app_nil_r; f_equal; f_equal; lia.
    + rewrite app_nil_r. exact IH.
  - induction rs as [|r rs IH] using rev_ind; [done|].
    rewrite model_stats_of_snoc, length_app. simpl. rewrite <- IH.
    generalize (model_stats_of rs). intros stats.
    induction stats as [|[k0 v] rest IHs]; simpl; [lia|].
    destruct (String.eqb k0 (model_used r)); simpl; [lia|]. rewrite IHs. lia.
Qed.

Lemma keys_count_result (k : string) (ok : bool) (stats : list (string * ModelStat)) :
  fst <$> count_result k ok stats
  = if bool_decide (k ∈ fst <$> stats) then fst <$> stats else (fst <$> stats) ++ [k].
Proof.
  induction stats as [|[k0 v] rest IH]; [done|]. cbn [count_result].
  destruct (String.eqb_spec k0 k) as [->|Hne]; rewrite !fmap_cons; cbn [fst].
  - rewrite bool_decide_eq_true_2; [done|]. apply elem_of_cons. by left.
  - rewrite IH. destruct (bool_decide (k ∈ fst <$> rest)) eqn:Hin.
    + apply bool_decide_eq_true in Hin. rewrite bool_decide_eq_true_2; [done|].
      apply elem_of_cons. by right.
    + apply bool_decide_eq_false in Hin. rewrite bool_decide_eq_false_2; [done|].
      rewrite elem_of_cons. intros [?|?]; congruence.
Qed.

(** X3. The report lists each backend that was used once, in the order
    in which the backends first appear in the results. *)
Theorem model_stats_keys (rs : list ProcessingResult) :
  fst <$> model_stats_of rs = reverse (remove_dups (reverse (model_used <$> rs)))
  ∧ NoDup (fst <$> model_stats_of rs)
  ∧ (∀ k, k ∈ fst <$> model_stats_of rs ↔ ∃ r, r ∈ rs ∧ model_used r = k).
Proof.
  assert (Hkeys : fst <$> model_stats_of rs
                  = reverse (remove_dups (reverse (model_used <$> rs)))).
  { induction rs as [|r rs IH] using rev_ind; [done|].
    rewrite model_stats_of_snoc, keys_count_result, IH.
    rewrite fmap_app, reverse_app. simpl.
    destruct (decide_rel elem_of (model_used r) (reverse (model_used <$> rs)))
      as [Hin|Hnin].
    - rewrite bool_decide_eq_true_2; [done|].
      by rewrite elem_of_reverse, elem_of_remove_dups.
    - rewrite bool_decide_eq_false_2; [by rewrite reverse_cons|].
      by rewrite elem_of_reverse, elem_of_remove_dups. }
  split_and!; [done| |].
  - rewrite Hkeys, reverse_Permutation. apply NoDup_remove_dups.
  - intros k. rewrite Hkeys, elem_of_reverse, elem_of_remove_dups, elem_of_reverse.
    rewrite list_elem_of_fmap.
    split; [intros (r & -> & Hr); by exists r|intros (r & Hr & <-); by exists r].
Qed.

Lemma model_stats_sound (rs : list ProcessingResult) :
  Forall (fun kv => 0 < total (snd kv)
                    ∧ total (snd kv) = successful (snd kv) + failed (snd kv))
         (model_stats_of rs).
Proof.
  induction rs as [|r rs IH] using rev_ind; [constructor|].
  rewrite model_stats_of_snoc. revert IH. generalize (model_stats_of rs). intros stats.
  induction stats as [|[k0 v] rest IHs]; simpl; intros Hall.
  - repeat constructor; simpl; destruct (success r); lia.
  - apply Forall_cons in Hall as [[Hpos Hsum] Hrest]. simpl in *.
    destruct (String.eqb k0 (model_used r)); simpl.
    + constructor; [|done]. simpl. destruct (success r); lia.
    + constructor; [done|]. by apply IHs.
Qed.

(** X4. The per-backend lines of the report are computed without
    fault whatever the results are: the guard [if stats['total'] > 0]
    always holds, every backend listed has at least one attempt, its
    successes and failures add up to its attempts, and its rate is
    successes / attempts * 100, between 0 and 100. *)
Theorem model_lines_figures (rs : list ProcessingResult) :
  ∃ lines,
    model_lines (model_stats_of rs) = Ok lines
    ∧ fst <$> lines = model_stats_of rs
    ∧ Forall (fun l =>
                let stats := snd (fst l) in
                0 < total stats
                ∧ total stats = successful stats + failed stats
                ∧ snd l = (Qnat (successful stats) / Qnat (total stats) * 100)%Q
                ∧ (0 <= snd l)%Q ∧ (snd l <= 100)%Q) lines.
Proof.
  pose proof (model_stats_sound rs) as Hall. revert Hall.
  generalize (model_stats_of rs). intros stats.
  induction stats as [|[k v] rest IH]; intros Hall.
  - exists []. by repeat constructor.
  - apply Forall_cons in Hall as [[Hpos Hsum] Hrest]. simpl in Hpos, Hsum.
    destruct (IH Hrest) as (lines & Hl & Hfst & Hfa).
    simpl. rewrite (proj2 (Nat.ltb_lt _ _) Hpos), truediv_nonzero by done. simpl.
    rewrite Hl. simpl. eexists. split; [reflexivity|]. split.
    + rewrite fmap_cons. cbn [fst]. by rewrite Hfst.
    + constructor; [|done]. simpl.
      destruct (percentage_bounds (successful v) (total v)) as [Hlo Hhi]; [lia|done|].
      done.
Qed.

Lemma build_report_value (self : AdvancedDocumentRefiner) :
  results self ≠ [] →
  ∃ lines,
    build_report self
    = Ok {| rep_total_files := length (results self);
            rep_successful := length (List.filter success (results self));
            rep_failed := length (List.filter (fun r => negb (success r)) (results self));
            rep_success_rate :=
              (Qnat (length (List.filter success (results self)))
               / Qnat (length (results self)) * 100)%Q;
            rep_total_time := Qsum (processing_time <$> results self);
            rep_avg_time :=
              (Qsum (processing_time <$> results self) / Qnat (length (results self)))%Q;
            rep_total_content :=
              sum_list (content_length <$> List.filter success (results self));
            rep_max_parallel := max_parallel self;
            rep_model_lines := lines;
            rep_success_lines := List.filter success (results self);
            rep_failed_lines := List.filter (fun r => negb (success r)) (results self);
            rep_output_dir := output_dir self |}.
Proof.
  intros Hne. unfold build_report.
  assert (Hlen : 0 < length (results self)) by (destruct (results self); [done|simpl; lia]).
  destruct (results self) as [|r0 rs] eqn:Hrs; [done|]. rewrite <- Hrs in *.
  rewrite !truediv_nonzero by done. simpl.
  destruct (model_lines_total (model_stats_of (results self))) as [ls ->]. simpl.
  by exists ls.
Qed.

(** X5. [print_progress_summary] never faults, also with no results:
    its counts add up, it prints a success rate exactly when there is
    at least one result, and what it prints agrees with the report
    whenever the report is computed. *)
Theorem progress_summary_figures (self : AdvancedDocumentRefiner) :
  ∃ ps,
    print_progress_summary self = Ok ps
    ∧ ps_total ps = length (results self)
    ∧ ps_successful ps + ps_failed ps = ps_total ps
    ∧ (ps_success_rate ps = None ↔ results self = [])
    ∧ (∀ report,
         build_report self = Ok report →
         ps_total ps = rep_total_files report
         ∧ ps_successful ps = rep_successful report
         ∧ ps_failed ps = rep_failed report
         ∧ ps_success_rate ps = Some (rep_success_rate report)).
Proof.
  unfold print_progress_summary.
  destruct (decide (results self = [])) as [Hrs|Hne].
  - rewrite Hrs. simpl. eexists. split; [reflexivity|]. simpl. split_and!; try done.
    intros report. by rewrite (build_report_empty self Hrs).
  - assert (Hlen : 0 < length (results self))
      by (destruct (results self); [done|simpl; lia]).
    rewrite (proj2 (Nat.ltb_lt _ _) Hlen), truediv_nonzero by done. simpl.
    eexists. split; [reflexivity|]. simpl. split_and!; try done.
    + apply filter_partition_length.
    + intros report. destruct (build_report_value self Hne) as [lines ->].
      by intros [= <-].
Qed.

(** ** Enumeration of the work items *)

Lemma filter_sublist {A} (h : A → bool) (l : list A) : sublist (List.filter h l) l.
Proof.
  induction l as [|x l IH]; [constructor|]. simpl.
  destruct (h x); by constructor.
Qed.

Lemma filter_all {A} (h : A → bool) (l : list A) :
  Forall (fun x => h x = true) l → List.filter h l = l.
Proof. induction 1 as [|x l Hx _ IH]; [done|]. simpl. by rewrite Hx, IH. Qed.

Lemma omap_none {A B} (g : A → option B) (l : list A) :
  Forall (fun x => g x = None) l → omap g l = [].
Proof. induction 1 as [|x l Hx _ IH]; [done|]. simpl. by rewrite Hx. Qed.

Lemma original_of_needs_marker (o : string) :
  PyStr.startswith "refined_" o = false → original_of o = None.
Proof. intros Ho. unfold original_of. by rewrite Ho. Qed.

(** X6. [get_files_to_process] returns names of the input directory in
    the order of the listing, none twice unless listed twice; it returns
    nothing when the input directory does not exist; and when the output
    directory does not exist or holds no name that starts with
    [refined_], it returns every [.txt] name that does not start with
    [refined_]: nothing is skipped. *)
Theorem enumeration_order_and_edges (E : Env) (self : AdvancedDocumentRefiner) :
  sublist (get_files_to_process E self) (listdir E (input_dir self))
  ∧ (NoDup (listdir E (input_dir self)) → NoDup (get_files_to_process E self))
  ∧ (path_exists E (input_dir self) = false → get_files_to_process E self = [])
  ∧ (path_exists E (input_dir self) = true →
     path_exists E (output_dir self) = false
     ∨ Forall (fun o => PyStr.startswith "refined_" o = false) (listdir E (output_dir self)) →
     get_files_to_process E self
     = List.filter (fun f => PyStr.endswith ".txt" f && negb (PyStr.startswith "refined_" f))
         (listdir E (input_dir self))).
Proof.
  assert (Hsub : sublist (get_files_to_process E self) (listdir E (input_dir self))).
  { unfold get_files_to_process. destruct (path_exists E (input_dir self)); simpl.
    - etrans; apply filter_sublist.
    - apply sublist_nil_l. }
  split_and!.
  - done.
  - intros Hnd. by eapply sublist_NoDup.
  - intros Hin. unfold get_files_to_process. by rewrite Hin.
  - intros Hin Hout. unfold get_files_to_process. rewrite Hin. simpl.
    apply filter_all, Forall_forall. intros f _. apply bool_decide_eq_true.
    unfold processed_files. destruct Hout as [->|Hall]; [set_solver|].
    destruct (path_exists E (output_dir self)); [|set_solver].
    rewrite omap_none; [set_solver|].
    eapply Forall_impl; [exact Hall|]. intros o. apply original_of_needs_marker.
Qed.

Lemma endswith_app (a suf : string) : PyStr.endswith suf (a ++ suf)%string = true.
Proof.
  unfold PyStr.endswith. rewrite string_length_app.
  rewrite (proj2 (Nat.leb_le _ _)) by lia.
  replace (String.length a + String.length suf - String.length suf)
    with (String.length a) by lia.
  assert (Hdrop : PyStr.drop_chars (String.length a) (a ++ suf)%string = suf).
  { induction a as [|x a IH]; [done|]. rewrite string_app_cons. simpl. exact IH. }
  rewrite Hdrop. apply String.eqb_refl.
Qed.

(** X7. The skip filter recognises the naming it was written for: from
    an output name [refined_] + tag + [_] + base + [_] + stamp + [.txt],
    where tag and stamp contain no underscore (and base and stamp no
    dot), it recovers [base.txt]; and with such a name in the output
    directory, [base.txt] is not selected again. *)
Theorem skip_filter_round_trip (tag base stamp : string) :
  PyStr.contains_char "_" tag = false →
  PyStr.contains_char "_" stamp = false →
  PyStr.contains_char "." base = false →
  PyStr.contains_char "." stamp = false →
  let out := ("refined_" ++ tag ++ "_" ++ base ++ "_" ++ stamp ++ ".txt")%string in
  original_of out = Some (base ++ ".txt")%string
  ∧ (∀ (E : Env) (self : AdvancedDocumentRefiner),
       path_exists E (output_dir self) = true →
       out ∈ listdir E (output_dir self) →
       (base ++ ".txt")%string ∉ get_files_to_process E self).
Proof.
  intros Htag Hstamp Hbase Hsd out.
  assert (Horig : original_of out = Some (base ++ ".txt")%string).
  { unfold original_of, out.
    change ("refined_" ++ tag ++ "_" ++ base ++ "_" ++ stamp ++ ".txt")%string
      with ("refined" ++ String "_" (tag ++ String "_" (base ++ "_" ++ stamp ++ ".txt")))%string.
    change (PyStr.startswith "refined_"
              ("refined" ++ String "_" (tag ++ String "_" (base ++ "_" ++ stamp ++ ".txt")))%string)
      with true. cbn [PyStr.startswith].
    rewrite (split_first_piece "_" "refined") by done.
    rewrite (split_first_piece "_" tag) by done.
    destruct (split_nonempty "_" (base ++ "_" ++ stamp ++ ".txt")%string) as (p & ps & Hs).
    rewrite Hs. cbn [length Nat.leb drop]. rewrite <- Hs, join_split.
    replace (base ++ "_" ++ stamp ++ ".txt")%string
      with ((base ++ String "_" stamp) ++ ".txt")%string by (by norm_app).
    rewrite replace_txt_suffix.
    2: { by rewrite contains_char_app, Hbase, contains_char_cons, Hsd. }
    by rewrite (rsplit1_head_last "_" base stamp Hstamp). }
  split; [done|].
  intros E self Hex Hin Hsel.
  apply get_files_to_process_admits in Hsel as (_ & _ & _ & Hnot).
  apply Hnot. unfold processed_files. rewrite Hex.
  apply elem_of_list_to_set, list_elem_of_omap. by exists out.
Qed.

Lemma skip_filter_round_trip_witness :
  PyStr.contains_char "_" "gemini" = false
  ∧ PyStr.contains_char "_" "20250102" = false
  ∧ PyStr.contains_char "." "scroll_trigger" = false
  ∧ PyStr.contains_char "." "20250102" = false
  ∧ original_of "refined_gemini_scroll_trigger_20250102.txt" = Some "scroll_trigger.txt"%string.
Proof.
  split_and!; [reflexivity|reflexivity|reflexivity|reflexivity|].
  exact (proj1 (skip_filter_round_trip "gemini" "scroll_trigger" "20250102"
                  eq_refl eq_refl eq_refl eq_refl)).
Defined.

Lemma configured_short_names (m : ModelConfig) :
  m ∈ all_models → PyStr.contains_char "." (short_name m) = false.
Proof.
  unfold all_models. rewrite !elem_of_cons, elem_of_nil.
  intros [->|[->|[->|[->|[->|[]]]]]]; reflexivity.
Qed.

(** X8. With the names the program really gives its outputs, the skip
    filter never recognises an item by its own output: for every
    configured backend, every input [base.txt] (base non-empty, without
    dot or slash) and every time, the name recovered from the item's
    output differs from the item's name; with only that output in the
    output directory the item is selected again. *)
Theorem own_output_never_marks_item (E : Env) (self : AdvancedDocumentRefiner)
    (m : ModelConfig) (base : string) :
  m ∈ all_models →
  PyStr.contains_char "." base = false →
  PyStr.contains_char "/" base = false →
  base ≠ ""%string →
  let f := (base ++ ".txt")%string in
  let out := output_filename_of E m f in
  original_of out ≠ Some f
  ∧ (path_exists E (input_dir self) = true →
     listdir E (output_dir self) = [out] →
     f ∈ listdir E (input_dir self) →
     PyStr.startswith "refined_" f = false →
     f ∈ get_files_to_process E self).
Proof.
  intros Hm Hbase Hslash Hne f out.
  destruct (own_output_is_not_recognised E m base (configured_short_names m Hm)
              Hbase Hslash Hne) as (other & Horig & _ & Hdiff).
  fold f out in Horig, Hdiff. split; [rewrite Horig; congruence|].
  intros Hin Hout Hf Hs. unfold get_files_to_process. rewrite Hin. cbn [negb].
  apply list_elem_of_In, filter_In. split.
  - apply filter_In. split; [by apply list_elem_of_In|].
    unfold f in *. cbv beta. by rewrite endswith_app, Hs.
  - apply bool_decide_eq_true. unfold processed_files.
    destruct (path_exists E (output_dir self)); [|set_solver].
    rewrite Hout. simpl. rewrite Horig. simpl.
    rewrite elem_of_union, elem_of_singleton. intros [?|?%elem_of_empty]; congruence.
Qed.

Lemma own_output_never_marks_item_witness :
  Demo.deepseek_r1 ∈ all_models
  ∧ PyStr.contains_char "." "e" = false
  ∧ PyStr.contains_char "/" "e" = false
  ∧ "e"%string ≠ ""%string
  ∧ original_of (output_filename_of Demo.env Demo.deepseek_r1 "e.txt") ≠ Some "e.txt"%string.
Proof.
  assert (H1 : Demo.deepseek_r1 ∈ all_models).
  { unfold all_models. rewrite !elem_of_cons. right; right; left. reflexivity. }
  assert (H4 : "e"%string ≠ ""%string) by discriminate.
  split_and!; [exact H1|reflexivity|reflexivity|exact H4|].
  exact (proj1 (own_output_never_marks_item Demo.env Demo.refiner Demo.deepseek_r1 "e"
                  H1 eq_refl eq_refl H4)).
Defined.

(** ** Construction and the choice of backends *)

Lemma model_available_provider (imp : Imports) (m : ModelConfig) :
  model_available imp m = true →
  (provider m = "gemini"%string ∧ HAS_GEMINI imp = true)
  ∨ (provider m = "openrouter"%string ∧ HAS_OPENAI imp = true).
Proof.
  unfold model_available.
  destruct (String.eqb_spec (provider m) "gemini") as [Hg|_]; simpl.
  - destruct (HAS_GEMINI imp); [by left|].
    destruct (String.eqb_spec (provider m) "openrouter") as [Ho|_]; simpl; [|done].
    destruct (HAS_OPENAI imp); [by right|done].
  - destruct (String.eqb_spec (provider m) "openrouter") as [Ho|_]; simpl; [|done].
    destruct (HAS_OPENAI imp); [by right|done].
Qed.

Lemma models_for_mode_provider (mode_arg : string) (m : ModelConfig) :
  m ∈ models_for_mode mode_arg →
  m ∈ all_models
  ∧ (mode_arg = "gemini"%string → provider m = "gemini"%string)
  ∧ (mode_arg = "openrouter"%string → provider m = "openrouter"%string).
Proof.
  unfold models_for_mode.
  destruct (String.eqb_spec mode_arg "gemini") as [->|Hg].
  - rewrite list_elem_of_In, filter_In, <- list_elem_of_In.
    intros [Hin Hp%String.eqb_eq]. done.
  - destruct (String.eqb_spec mode_arg "openrouter") as [->|Ho].
    + rewrite list_elem_of_In, filter_In, <- list_elem_of_In.
      intros [Hin Hp%String.eqb_eq]. done.
    + done.
Qed.

Lemma all_models_short_names : NoDup (short_name <$> all_models).
Proof.
  unfold all_models. simpl.
  repeat (apply NoDup_cons; split;
          [rewrite ?not_elem_of_cons; split_and?; try discriminate; apply not_elem_of_nil|]).
  apply NoDup_nil_2.
Qed.

(** X9. A refiner that was constructed holds exactly the configured
    backends of its mode whose client library was imported, in the
    configured order and at least one; their short identifiers are
    distinct; rotation starts at the first; there are five permits, all
    free, and no results. *)
Theorem constructed_refiner (imp : Imports) (mode_arg : string)
    (self : AdvancedDocumentRefiner) :
  init imp mode_arg = Ok self →
  models self = List.filter (model_available imp) (models_for_mode mode_arg)
  ∧ models self ≠ []
  ∧ sublist (models self) all_models
  ∧ NoDup (short_name <$> models self)
  ∧ Forall (fun m =>
              (provider m = "gemini"%string ∧ HAS_GEMINI imp = true
               ∨ provider m = "openrouter"%string ∧ HAS_OPENAI imp = true)
              ∧ (mode_arg = "gemini"%string → provider m = "gemini"%string)
              ∧ (mode_arg = "openrouter"%string → provider m = "openrouter"%string))
           (models self)
  ∧ mode self = mode_arg
  ∧ current_model_index self = 0
  ∧ max_parallel self = 5 ∧ semaphore self = 5
  ∧ results self = [].
Proof.
  intros Hinit.
  destruct (init_cases imp mode_arg)
    as [[_ Hr]|[Hne (self1 & Hok & Hms & Hmode & _ & _ & Hmp & Hsem & Hidx & Hres)]];
    [congruence|].
  assert (self1 = self) as -> by congruence.
  assert (Hsub : sublist (models self) all_models).
  { rewrite Hms. etrans; [apply filter_sublist|].
    unfold models_for_mode. destruct (String.eqb mode_arg "gemini"); [apply filter_sublist|].
    destruct (String.eqb mode_arg "openrouter"); [apply filter_sublist|done]. }
  split_and!; try done.
  - by rewrite Hms.
  - apply (sublist_NoDup _ (short_name <$> all_models));
      [apply all_models_short_names|by apply fmap_sublist].
  - rewrite Hms. apply Forall_forall. intros m.
    rewrite list_elem_of_In, filter_In, <- list_elem_of_In. intros [Hin Hav].
    apply models_for_mode_provider in Hin as (_ & Hg & Ho).
    apply model_available_provider in Hav. done.
Qed.

Lemma constructed_refiner_witness :
  init Demo.env "all" = Ok Demo.refiner
  ∧ models Demo.refiner = List.filter (model_available Demo.env) (models_for_mode "all")
  ∧ semaphore Demo.refiner = 5.
Proof.
  split; [reflexivity|].
  destruct (constructed_refiner Demo.env "all" Demo.refiner eq_refl)
    as (Hms & _ & _ & _ & _ & _ & _ & _ & Hsem & _).
  split; [exact Hms|exact Hsem].
Defined.

Lemma process_item_model_used (E : Env) (self : AdvancedDocumentRefiner)
    (m : ModelConfig) (f : string) :
  model_used (fst (process_item E self m f)) = short_name m.
Proof.
  unfold process_item. destruct (read_file_async E _ _); [|done].
  destruct (call_backend E _ _ _); [|done].
  by destruct (write_file_async E _ _ _).
Qed.

(** X10. The mode a refiner was constructed with shows in every result
    of its runs: a result always names a backend the refiner holds; in
    mode [gemini] every result names [gemini_25_pro], in mode
    [openrouter] none does. *)
Theorem results_respect_mode (E : Env) (mode_arg : string)
    (self : AdvancedDocumentRefiner) (files : list string) (evs : list event)
    (st : RunState) :
  init E mode_arg = Ok self →
  reachable E (start self files evs) st →
  Forall (fun r => ∃ m, m ∈ models self ∧ model_used r = short_name m)
         (results (self_of st))
  ∧ (mode_arg = "gemini"%string →
     Forall (fun r => model_used r = "gemini_25_pro"%string) (results (self_of st)))
  ∧ (mode_arg = "openrouter"%string →
     Forall (fun r => model_used r ≠ "gemini_25_pro"%string) (results (self_of st))).
Proof.
  intros Hinit Hreach.
  destruct (init_ready _ _ _ Hinit) as (Hidx & _ & _ & Hres).
  destruct (init_cases E mode_arg)
    as [[_ Hr]|[_ (self1 & Hok & Hms & _)]]; [congruence|].
  assert (self1 = self) as -> by congruence.
  destruct (reachable_results E self files evs st Hidx Hreach) as (new & Hnew & Hall).
  rewrite Hres in Hnew. simpl in Hnew. rewrite Hnew.
  assert (Hused : Forall (fun r => ∃ m, m ∈ models self ∧ model_used r = short_name m) new).
  { eapply Forall_impl; [exact Hall|]. intros r (m & Hm & Hr).
    exists m. split; [done|]. rewrite Hr. apply process_item_model_used. }
  assert (Hprov : ∀ m, m ∈ models self →
            m ∈ all_models
            ∧ (mode_arg = "gemini"%string → provider m = "gemini"%string)
            ∧ (mode_arg = "openrouter"%string → provider m = "openrouter"%string)).
  { intros m. rewrite Hms, list_elem_of_In, filter_In, <- list_elem_of_In.
    intros [Hin _]. by apply models_for_mode_provider. }
  split_and!; [done| |].
  - intros Hg. eapply Forall_impl; [exact Hused|]. intros r (m & Hm & ->).
    destruct (Hprov m Hm) as (Hin & Hp & _). specialize (Hp Hg). revert Hin Hp.
    unfold all_models. rewrite !elem_of_cons, elem_of_nil.
    intros [->|[->|[->|[->|[->|[]]]]]]; done.
  - intros Ho. eapply Forall_impl; [exact Hused|]. intros r (m & Hm & ->).
    destruct (Hprov m Hm) as (Hin & _ & Hp). specialize (Hp Ho). revert Hin Hp.
    unfold all_models. rewrite !elem_of_cons, elem_of_nil.
    intros [->|[->|[->|[->|[->|[]]]]]]; done.
Qed.

Lemma results_respect_mode_witness :
  init Demo.env "all" = Ok Demo.refiner
  ∧ Forall (fun r => ∃ m, m ∈ models Demo.refiner ∧ model_used r = short_name m)
           (results (self_of Demo.first_run)).
Proof.
  split; [reflexivity|].
  exact (proj1 (results_respect_mode Demo.env "all" Demo.refiner Demo.files []
                  Demo.first_run eq_refl
                  (reachable_run_loop Demo.env Demo.schedule _))).
Defined.

(** ** The loop: order of results, length of runs *)

Lemma resume_event_not_return (E : Env) (self : AdvancedDocumentRefiner) (f : string)
    (p : pc) :
  match resume E self f p with
  | Some (Suspends _ ev) | Some (Returns _ ev) => returns_of [ev] = []
  | None => True
  end.
Proof.
  destruct p; simpl; try done.
  - by destruct (read_file_async E _ _).
  - by destruct (call_backend E _ _ _).
  - by destruct (write_file_async E _ _ _).
Qed.

Lemma returns_of_app (a b : list event) : returns_of (a ++ b) = returns_of a ++ returns_of b.
Proof. apply omap_app. Qed.

Lemma pending_results_app (a b : list (outcome ProcessingResult)) :
  pending_results (a ++ b) = pending_results a ++ pending_results b.
Proof. apply omap_app. Qed.

(** X11. Results are collected in the order in which the tasks return,
    not in the order of submission: at any point of a run, the results
    collected so far followed by those of the tasks that have finished
    but were not yet yielded by [as_completed] are the results returned
    so far, in the order of the returns. *)
Theorem results_in_return_order (E : Env) (self : AdvancedDocumentRefiner)
    (files : list string) (evs : list event) (st : RunState) :
  returns_of evs = [] →
  reachable E (start self files evs) st →
  results (self_of st) ++ pending_results (finished st)
  = results self ++ returns_of (log st).
Proof.
  intros Hevs Hreach. unfold reachable in Hreach.
  pattern st. revert st Hreach. apply rtc_ind_r; [|intros y z Hxy Hyz IH].
  - simpl. by rewrite Hevs.
  - destruct Hyz as [[i|] Hl]; simpl in Hl.
    + apply step_task_cases in Hl
        as [l1 l2 f free m self' Hab Ht Hsem Hg ->
           |l1 l2 f free e Hab Ht Hsem Hg ->
           |l1 l2 f p p' ev Hab Ht Hr ->
           |l1 l2 f p r ev Hab Ht Hr ->]; simpl.
      * apply get_next_model_Ok in Hg as [_ ->]. simpl.
        by rewrite returns_of_app, app_nil_r.
      * by rewrite returns_of_app, pending_results_app, !app_nil_r.
      * pose proof (resume_event_not_return E (self_of y) f p) as Hev.
        rewrite Hr in Hev. by rewrite returns_of_app, Hev, app_nil_r.
      * pose proof (resume_event_not_return E (self_of y) f p) as Hev.
        rewrite Hr in Hev.
        change [ev; EvRelease f; EvReturn f r] with ([ev] ++ [EvRelease f; EvReturn f r]).
        rewrite !returns_of_app, Hev, pending_results_app. simpl.
        by rewrite !app_assoc, IH.
    + apply step_collect_cases in Hl as (_ & o & rest & Hf & _ & Hf' & Hlog & Ho).
      rewrite Hlog, Hf', <- IH, Hf. destruct o; destruct Ho as [-> _]; simpl; [|done].
      by rewrite <- app_assoc.
Qed.

Lemma results_in_return_order_witness :
  returns_of [] = []
  ∧ results (self_of Demo.first_run) ++ pending_results (finished Demo.first_run)
    = results Demo.refiner ++ returns_of (log Demo.first_run).
Proof.
  split; [reflexivity|].
  exact (results_in_return_order Demo.env Demo.refiner Demo.files [] Demo.first_run
           eq_refl (reachable_run_loop Demo.env Demo.schedule _)).
Defined.

Lemma run_weight_start (self : AdvancedDocumentRefiner) files evs :
  run_weight (start self files evs) = 6 * length files.
Proof.
  unfold run_weight, start. cbn [aborted tasks finished length]. rewrite Nat.add_0_r.
  induction files as [|f fs IH]; [done|].
  rewrite fmap_cons.
  change (sum_list_with (fun t : string * pc => pc_weight (snd t))
            ((f, AwaitPermit) :: ((fun f => (f, AwaitPermit)) <$> fs)))
    with (6 + sum_list_with (fun t : string * pc => pc_weight (snd t))
                ((fun f => (f, AwaitPermit)) <$> fs)).
  rewrite IH. cbn [length]. lia.
Qed.

Lemma nsteps_exec_schedule (E : Env) (sched : list label) (st : RunState) :
  ∃ k, nsteps (step E) k st (exec_schedule E sched st).
Proof.
  revert st. induction sched as [|l sched IH]; intros st; simpl.
  - exists 0. constructor.
  - destruct (step_fn E l st) as [st'|] eqn:Hl; simpl.
    + destruct (IH st') as [k Hk]. exists (S k). econstructor; [by exists l|done].
    + apply IH.
Qed.

(** X12. The loop always comes to an end: whatever is resumed in
    whatever order, a run over [n] items makes at most [6 * n] steps
    (five resumptions of each task and one collection of its result). *)
Theorem run_length_bound (E : Env) (self : AdvancedDocumentRefiner)
    (files : list string) (evs : list event) (k : nat) (st : RunState) :
  nsteps (step E) k (start self files evs) st →
  k + run_weight st ≤ 6 * length files.
Proof.
  rewrite <- (run_weight_start self files evs).
  generalize (start self files evs). intros st0 Hk.
  induction Hk as [x|n x y z Hxy _ IH]; [simpl; lia|].
  apply step_decreases in Hxy. lia.
Qed.

Lemma run_length_bound_witness :
  ∃ k, nsteps (step Demo.env) k (start Demo.refiner Demo.files [])
         (exec_schedule Demo.env Demo.schedule (start Demo.refiner Demo.files []))
       ∧ k ≤ 6 * length Demo.files.
Proof.
  destruct (nsteps_exec_schedule Demo.env Demo.schedule (start Demo.refiner Demo.files []))
    as [k Hk].
  exists k. split; [exact Hk|].
  pose proof (run_length_bound Demo.env Demo.refiner Demo.files [] k _ Hk). lia.
Defined.

(** ** The whole run *)






Lemma main_outcome_example :
  fst (main Demo.env false false Demo.schedule) = None.
Proof. vm_compute. reflexivity. Qed.

(** ** Provider errors *)

(** X15. When the provider call fails, the item's result carries the
    provider's message behind the prefix of the function that made the
    call ([Gemini processing error: ] for a backend of provider
    [gemini], [OpenRouter processing error: ] for any other), and the
    item ends there: after the read and the call nothing is written and
    there is no sleep. *)
Theorem provider_failure_result (E : Env) (self : AdvancedDocumentRefiner)
    (m : ModelConfig) (f content e0 : string) :
  read_file_async E f (PyStr.path_join (input_dir self) f) = Ok content →
  (provider m = "gemini"%string
   ∧ generate_content E f "gemini-2.0-flash-exp" (get_refining_prompt E ++ content)%string
     = Raise e0)
  ∨ (provider m ≠ "gemini"%string
     ∧ chat_completions_create E f (name m) (get_refining_prompt E ++ content)%string
       = Raise e0) →
  let prefix :=
    if String.eqb (provider m) "gemini"
    then "Gemini processing error: "%string else "OpenRouter processing error: "%string in
  process_item E self m f
  = (failure_result E m f (prefix ++ e0)%string,
     [EvRead f (PyStr.path_join (input_dir self) f); EvCall f (provider m) (name m)])
  ∧ error (fst (process_item E self m f)) = Some (prefix ++ e0)%string
  ∧ output_file (fst (process_item E self m f)) = None.
Proof.
  intros Hrd Hfail prefix.
  assert (Hc : call_backend E f content m = Raise (prefix ++ e0)%string).
  { destruct (call_backend_wraps E f content m) as [Hg Ho]. unfold prefix.
    destruct Hfail as [[Hp He]|[Hp He]].
    - rewrite Hp. simpl. by apply Hg.
    - destruct (String.eqb_spec (provider m) "gemini"); [done|]. by apply Ho. }
  assert (Hpi : process_item E self m f
                = (failure_result E m f (prefix ++ e0)%string,
                   [EvRead f (PyStr.path_join (input_dir self) f);
                    EvCall f (provider m) (name m)])).
  { unfold process_item. by rewrite Hrd, Hc. }
  rewrite Hpi. done.
Qed.

Lemma provider_failure_result_witness :
  read_file_async Demo.env "c.txt" (PyStr.path_join (input_dir Demo.refiner) "c.txt")
  = Ok "raw text of c.txt"%string
  ∧ error (fst (process_item Demo.env Demo.refiner Demo.deepseek_r1 "c.txt"))
    = Some "OpenRouter processing error: Error code: 429"%string.
Proof.
  split; [reflexivity|].
  refine (proj1 (proj2 (provider_failure_result Demo.env Demo.refiner Demo.deepseek_r1
                          "c.txt" "raw text of c.txt" "Error code: 429" eq_refl _))).
  right. split; [discriminate|reflexivity].
Defined.

(** ** Rotation spreads the items evenly *)

Lemma resume_backend (E : Env) (self : AdvancedDocumentRefiner) (f : string) (p : pc) :
  match resume E self f p with
  | Some (Suspends p' _) => backend_of (f, p') = backend_of (f, p)
  | Some (Returns r _) => backend_of (f, p) = Some (model_used r)
  | None => True
  end.
Proof.
  destruct p; simpl; try done.
  - by destruct (read_file_async E _ _).
  - by destruct (call_backend E _ _ _).
  - by destruct (write_file_async E _ _ _).
Qed.

Lemma reachable_backends (E : Env) (self : AdvancedDocumentRefiner) files evs
    (st : RunState) :
  drawn evs = [] →
  reachable E (start self files evs) st →
  short_name <$> drawn (log st) ≡ₚ omap backend_of (tasks st).
Proof.
  intros Hevs Hreach. unfold reachable in Hreach.
  pattern st. revert st Hreach. apply rtc_ind_r; [|intros y z Hxy Hyz IH].
  - simpl. rewrite Hevs. simpl. induction files as [|f fs IHf]; [done|]. exact IHf.
  - destruct Hyz as [[i|] Hl]; simpl in Hl.
    + apply step_task_cases in Hl
        as [l1 l2 f free m self' Hab Ht Hsem Hg ->
           |l1 l2 f free e Hab Ht Hsem Hg ->
           |l1 l2 f p p' ev Hab Ht Hr ->
           |l1 l2 f p r ev Hab Ht Hr ->];
        rewrite Ht, omap_app in IH; simpl; rewrite drawn_app, omap_app.
      * simpl in IH |- *. rewrite fmap_app, IH. simpl.
        rewrite <- app_assoc. apply Permutation_app_head.
        symmetry. apply Permutation_cons_append.
      * simpl in IH |- *. by rewrite app_nil_r.
      * pose proof (resume_event_not_drawn E (self_of y) f p) as Hev.
        pose proof (resume_backend E (self_of y) f p) as Hb.
        rewrite Hr in Hev, Hb. rewrite Hev, app_nil_r, IH.
        change (omap backend_of ((f, p') :: l2))
          with (from_option (fun s => s :: omap backend_of l2) (omap backend_of l2)
                  (backend_of (f, p'))).
        change (omap backend_of ((f, p) :: l2))
          with (from_option (fun s => s :: omap backend_of l2) (omap backend_of l2)
                  (backend_of (f, p))).
        by rewrite Hb.
      * pose proof (resume_event_not_drawn E (self_of y) f p) as Hev.
        pose proof (resume_backend E (self_of y) f p) as Hb.
        rewrite Hr in Hev, Hb.
        change [ev; EvRelease f; EvReturn f r] with ([ev] ++ [EvRelease f; EvReturn f r]).
        rewrite drawn_app, Hev. simpl. rewrite app_nil_r, IH.
        change (omap backend_of ((f, p) :: l2))
          with (from_option (fun s => s :: omap backend_of l2) (omap backend_of l2)
                  (backend_of (f, p))).
        by rewrite Hb.
    + apply step_collect_cases in Hl as (_ & o & rest & _ & Ht & _ & Hlog & _).
      by rewrite Hlog, Ht.
Qed.

Lemma filter_length_perm {A} (h : A → bool) (l l' : list A) :
  l ≡ₚ l' → length (List.filter h l) = length (List.filter h l').
Proof.
  induction 1 as [|x l l' _ IH|x y l|l l' l'' _ IH1 _ IH2]; simpl; [done| | |congruence].
  - destruct (h x); simpl; by rewrite IH.
  - by destruct (h x), (h y).
Qed.

Lemma filter_length_fmap {A B} (g : A → B) (h : B → bool) (l : list A) :
  length (List.filter h (g <$> l)) = length (List.filter (fun x => h (g x)) l).
Proof.
  induction l as [|x l IH]; [done|]. rewrite fmap_cons. cbn [List.filter].
  destruct (h (g x)); cbn [length]; by rewrite IH.
Qed.

(** Among the numbers below [n], those congruent to [j] modulo [L]. *)
Lemma count_congruent (L n j : nat) :
  j < L →
  length (List.filter (fun k => k mod L =? j) (seq 0 n))
  = n / L + (if j <? n mod L then 1 else 0).
Proof.
  intros Hj. induction n as [|n IH].
  { rewrite Nat.Div0.mod_0_l, Nat.Div0.div_0_l. simpl.
    destruct (Nat.ltb_spec j 0); [lia|done]. }
  rewrite seq_S, List.filter_app, length_app, IH. cbn [List.filter Nat.add].
  assert (HL : L ≠ 0) by lia.
  pose proof (Nat.div_mod_eq n L) as Hn.
  pose proof (Nat.mod_upper_bound n L HL) as Hr.
  destruct (decide (S (n mod L) < L)) as [Hlt|Hge].
  - assert (Hq : S n / L = n / L)
      by (symmetry; apply (Nat.div_unique _ _ _ (S (n mod L))); lia).
    assert (Hm : S n mod L = S (n mod L))
      by (symmetry; apply (Nat.mod_unique _ _ (n / L)); lia).
    rewrite Hq, Hm.
    destruct (Nat.eqb_spec (n mod L) j), (Nat.ltb_spec j (n mod L)),
      (Nat.ltb_spec j (S (n mod L))); simpl; lia.
  - assert (Hq : S n / L = S (n / L))
      by (symmetry; apply (Nat.div_unique _ _ _ 0); lia).
    assert (Hm : S n mod L = 0)
      by (symmetry; apply (Nat.mod_unique _ _ (S (n / L))); lia).
    rewrite Hq, Hm.
    destruct (Nat.eqb_spec (n mod L) j), (Nat.ltb_spec j (n mod L)),
      (Nat.ltb_spec j 0); simpl; lia.
Qed.

Lemma rotation_count (ms ds : list ModelConfig) (j : nat) (m : ModelConfig) :
  NoDup (short_name <$> ms) →
  ms !! j = Some m →
  (∀ k, k < length ds → ds !! k = ms !! (k mod length ms)) →
  length (List.filter (fun s => String.eqb s (short_name m)) (short_name <$> ds))
  = length (List.filter (fun k => k mod length ms =? j) (seq 0 (length ds))).
Proof.
  intros Hnd Hj. induction ds as [|d ds IH] using rev_ind; intros Hrot; [done|].
  rewrite fmap_app, length_app. simpl. rewrite Nat.add_1_r, seq_S. simpl.
  rewrite !List.filter_app, !length_app, IH.
  2: { intros k Hk. rewrite <- Hrot by (rewrite length_app; simpl; lia).
       by rewrite lookup_app_l. }
  f_equal. simpl.
  assert (Hd : ms !! (length ds mod length ms) = Some d).
  { rewrite <- Hrot by (rewrite length_app; simpl; lia).
    by rewrite lookup_app_r, Nat.sub_diag by lia. }
  destruct (String.eqb_spec (short_name d) (short_name m)) as [Heq|Hne].
  - assert (length ds mod length ms = j) as ->; [|by rewrite Nat.eqb_refl].
    eapply NoDup_lookup; [exact Hnd| |].
    + by rewrite list_lookup_fmap, Hd.
    + by rewrite list_lookup_fmap, Hj, Heq.
  - destruct (Nat.eqb_spec (length ds mod length ms) j) as [Hjj|_]; [|done].
    rewrite Hjj, Hj in Hd. congruence.
Qed.

(** X16. Rotation spreads the items evenly over the backends.  At the
    end of a run of a fresh refiner whose backends have distinct short
    identifiers, the number of results that name the backend at position
    [j] is [n div L], plus one for the first [n mod L] positions, where
    [n] is the number of items and [L] the number of backends;
    whichever items succeeded or failed, and in whatever order the tasks
    ran. *)
Theorem backends_used_evenly (E : Env) (self : AdvancedDocumentRefiner)
    (files : list string) (evs : list event) (st : RunState) (j : nat)
    (m : ModelConfig) :
  current_model_index self = 0 →
  0 < semaphore self →
  results self = [] →
  NoDup (short_name <$> models self) →
  drawn evs = [] →
  models self !! j = Some m →
  reachable E (start self files evs) st →
  terminal E st →
  length (List.filter (fun r => String.eqb (model_used r) (short_name m))
            (results (self_of st)))
  = length files / length (models self)
    + (if j <? length files mod length (models self) then 1 else 0).
Proof.
  intros H0 Hsem Hres Hnd Hevs Hj Hreach Hterm.
  pose proof (lookup_lt_Some _ _ _ Hj) as HjL.
  assert (Hidx : current_model_index self < length (models self)) by lia.
  pose proof (reachable_inv E self files _ _ (run_inv_start E self files evs Hidx) Hreach)
    as Hinv.
  pose proof (reachable_permits E _ _ Hreach) as [Hperm _].
  rewrite in_flight_start in Hperm. simpl in Hperm.
  destruct (terminal_all_returned E self files st Hinv) as [Hfin Hret]; [lia|done|].
  destruct (inv_results _ _ _ _ Hinv) as (new & Hnew & Hp).
  rewrite Hfin in Hp. simpl in Hp. rewrite app_nil_r in Hp.
  rewrite Hres in Hnew. simpl in Hnew.
  assert (Hback : omap backend_of (tasks st) = model_used <$> omap returned_result (tasks st)).
  { clear -Hret. induction Hret as [|[f p] ts [r Hr] _ IH]; [done|].
    simpl in Hr. subst p.
    change (omap backend_of ((f, Returned r) :: ts))
      with (model_used r :: omap backend_of ts).
    change (omap returned_result ((f, Returned r) :: ts))
      with (r :: omap returned_result ts).
    by rewrite fmap_cons, IH. }
  pose proof (reachable_backends E self files evs st Hevs Hreach) as Hdrawn.
  rewrite Hback, <- Hp, <- Hnew in Hdrawn.
  destruct (reachable_rotation E self files evs st Hidx Hevs Hreach) as (_ & Hrot & _).
  rewrite H0 in Hrot. simpl in Hrot.
  assert (Hlen : length (drawn (log st)) = length files).
  { apply Permutation_length in Hdrawn. rewrite !length_fmap in Hdrawn.
    rewrite Hdrawn, Hnew.
    destruct (returned_names E self (tasks st) (inv_expect _ _ _ _ Hinv) Hret)
      as (_ & Hl & _).
    apply Permutation_length in Hp. rewrite Hp, Hl.
    rewrite <- (inv_names _ _ _ _ Hinv). by rewrite length_fmap. }
  rewrite <- (filter_length_fmap model_used (fun s => String.eqb s (short_name m))).
  rewrite <- (filter_length_perm _ _ _ Hdrawn).
  rewrite (rotation_count (models self) (drawn (log st)) j m Hnd Hj Hrot).
  rewrite Hlen. by apply count_congruent.
Qed.

Lemma backends_used_evenly_witness :
  current_model_index Demo.refiner = 0
  ∧ 0 < semaphore Demo.refiner
  ∧ results Demo.refiner = []
  ∧ models Demo.refiner !! 1 = Some (Build_ModelConfig
        "deepseek/deepseek-r1-0528-qwen3-8b:free" "deepseek_qwen3_8b" "openrouter" 8)
  ∧ length (List.filter (fun r => String.eqb (model_used r) "deepseek_qwen3_8b")
              (results (self_of Demo.first_run)))
    = 7 / 5 + 1.
Proof.
  assert (H2 : 0 < semaphore Demo.refiner) by (simpl; lia).
  split_and!; [reflexivity|exact H2|reflexivity|reflexivity|].
  exact (backends_used_evenly Demo.env Demo.refiner Demo.files [] Demo.first_run 1 _
           eq_refl H2 eq_refl all_models_short_names eq_refl eq_refl
           (reachable_run_loop Demo.env Demo.schedule _)
           (run_loop_terminal Demo.env Demo.schedule _)).
Defined.
